(** * Verification of the card-model converter scripts

    Shallow embedding of [src/convert_tflite.py] (procedure A,
    [convert_tflite_to_tfjs]) and [src/manual_convert.py] (procedure B,
    [create_tfjs_model]).  Both scripts are linear sequences of file-system
    operations; they are modelled in a state/error monad over a world that
    holds the files, the directories, the write faults of the disk, the
    state of numpy's random generator and a log of the I/O operations. *)

From Stdlib Require Import ZArith List String Ascii Lia.
From stdpp Require Import base gmap strings list.
Import ListNotations.
Open Scope Z_scope.

(* ================================================================== *)
(** ** JSON values and Python's [json.dump(obj, f, indent=2)] *)

#[local] Set Warnings "-register-all".

(** A Python dict keeps its insertion order, so an object is an
    association list. *)
Inductive json : Type :=
| JNum (z : Z)
| JStr (s : string)
| JArr (l : list json)
| JObj (kvs : list (string * json)).

Module Json.

Local Open Scope string_scope.

Definition nl : ascii := Ascii.ascii_of_nat 10.
Definition dq : ascii := Ascii.ascii_of_nat 34.
Definition bs : ascii := Ascii.ascii_of_nat 92.

(** Decimal digits of a non-negative integer ([str(n)]). *)
Fixpoint digits (fuel : nat) (n : Z) (acc : string) : string :=
  match fuel with
  | O => acc
  | S f =>
      let d := String (Ascii.ascii_of_nat (48 + Z.to_nat (n mod 10)%Z)) acc in
      if (n <? 10)%Z then d else digits f (n / 10)%Z d
  end.

Definition show_int (z : Z) : string :=
  if (z <? 0)%Z then String "-"%char (digits 64 (- z)%Z EmptyString)
  else digits 64 z EmptyString.

(** String escaping of the encoder: the quote, the backslash and the
    newline are escaped; the literals of both scripts are printable ASCII,
    so the [\uXXXX] escapes of [ensure_ascii] never arise. *)
Fixpoint escape (s : string) : string :=
  match s with
  | EmptyString => EmptyString
  | String c r =>
      if Ascii.eqb c dq then String bs (String dq (escape r))
      else if Ascii.eqb c bs then String bs (String bs (escape r))
      else if Ascii.eqb c nl then String bs (String "n"%char (escape r))
      else String c (escape r)
  end.

Definition quote (s : string) : string :=
  String dq (escape s ++ String dq EmptyString).

(** ["\n" + " " * (indent * level)] with [indent = 2]. *)
Definition newline_indent (lvl : nat) : string :=
  String nl (String.concat "" (repeat " " (2 * lvl))).

(** [json.dump] with [indent=2]: item separator [","] followed by a new
    line, key separator [": "], empty containers as [[]] and [{}]. *)
Fixpoint dump (lvl : nat) (j : json) : string :=
  match j with
  | JNum z => show_int z
  | JStr s => quote s
  | JArr [] => "[]"
  | JArr (x :: xs) =>
      "[" ++ newline_indent (S lvl) ++ dump (S lvl) x ++
      (fix items (l : list json) : string :=
         match l with
         | [] => EmptyString
         | y :: ys => "," ++ newline_indent (S lvl) ++ dump (S lvl) y ++ items ys
         end) xs
      ++ newline_indent lvl ++ "]"
  | JObj [] => "{}"
  | JObj ((k, v) :: kvs) =>
      "{" ++ newline_indent (S lvl) ++ quote k ++ ": " ++ dump (S lvl) v ++
      (fix members (l : list (string * json)) : string :=
         match l with
         | [] => EmptyString
         | (k', v') :: r =>
             "," ++ newline_indent (S lvl) ++ quote k' ++ ": " ++
             dump (S lvl) v' ++ members r
         end) kvs
      ++ newline_indent lvl ++ "}"
  end.

(* ------------------------------------------------------------------ *)
(** A reader for the JSON grammar (RFC 8259), restricted to what the
    descriptors use: objects, arrays, strings and integers.  Anything it
    accepts is valid JSON. *)

Definition is_ws (c : ascii) : bool :=
  let n := Ascii.nat_of_ascii c in
  (n =? 32)%nat || (n =? 9)%nat || (n =? 10)%nat || (n =? 13)%nat.

Fixpoint skip_ws (s : list ascii) : list ascii :=
  match s with
  | c :: r => if is_ws c then skip_ws r else s
  | [] => []
  end.

Definition is_digit (c : ascii) : bool :=
  let n := Ascii.nat_of_ascii c in (48 <=? n)%nat && (n <=? 57)%nat.

Fixpoint read_digits (s : list ascii) (acc : Z) : Z * list ascii :=
  match s with
  | c :: r =>
      if is_digit c
      then read_digits r (acc * 10 + Z.of_nat (Ascii.nat_of_ascii c - 48))%Z
      else (acc, s)
  | [] => (acc, [])
  end.

Definition read_nat (s : list ascii) : option (Z * list ascii) :=
  match s with
  | c :: _ => if is_digit c then Some (read_digits s 0) else None
  | [] => None
  end.

Definition read_int (s : list ascii) : option (Z * list ascii) :=
  match s with
  | c :: r =>
      if Ascii.eqb c "-"%char then
        match read_nat r with Some (n, r') => Some ((- n)%Z, r') | None => None end
      else read_nat s
  | [] => None
  end.

(** The characters of a string literal after its opening quote, up to and
    including the closing quote. *)
Fixpoint read_chars (s : list ascii) (acc : list ascii)
  : option (string * list ascii) :=
  match s with
  | [] => None
  | c :: r =>
      if Ascii.eqb c dq then Some (string_of_list_ascii (rev acc), r)
      else if Ascii.eqb c bs then
        match r with
        | e :: r' =>
            if Ascii.eqb e dq then read_chars r' (dq :: acc)
            else if Ascii.eqb e bs then read_chars r' (bs :: acc)
            else if Ascii.eqb e "/"%char then read_chars r' ("/"%char :: acc)
            else if Ascii.eqb e "n"%char then read_chars r' (nl :: acc)
            else None
        | [] => None
        end
      else if (Ascii.nat_of_ascii c <? 32)%nat then None
      else read_chars r (c :: acc)
  end.

Definition read_string (s : list ascii) : option (string * list ascii) :=
  match skip_ws s with
  | c :: r => if Ascii.eqb c dq then read_chars r [] else None
  | [] => None
  end.

Definition expect (c : ascii) (s : list ascii) : option (list ascii) :=
  match skip_ws s with
  | c' :: r => if Ascii.eqb c c' then Some r else None
  | [] => None
  end.

Fixpoint read_value (fuel : nat) (s : list ascii) : option (json * list ascii) :=
  match fuel with
  | O => None
  | S f =>
      match skip_ws s with
      | [] => None
      | c :: r =>
          if Ascii.eqb c "["%char then
            match expect "]"%char r with
            | Some r' => Some (JArr [], r')
            | None => read_elems f [] r
            end
          else if Ascii.eqb c "{"%char then
            match expect "}"%char r with
            | Some r' => Some (JObj [], r')
            | None => read_members f [] r
            end
          else if Ascii.eqb c dq then
            match read_chars r [] with
            | Some (str, r') => Some (JStr str, r')
            | None => None
            end
          else
            match read_int (c :: r) with
            | Some (z, r') => Some (JNum z, r')
            | None => None
            end
      end
  end
with read_elems (fuel : nat) (acc : list json) (s : list ascii)
  : option (json * list ascii) :=
  match fuel with
  | O => None
  | S f =>
      match read_value f s with
      | None => None
      | Some (v, r) =>
          match expect ","%char r with
          | Some r' => read_elems f (v :: acc) r'
          | None =>
              match expect "]"%char r with
              | Some r' => Some (JArr (rev (v :: acc)), r')
              | None => None
              end
          end
      end
  end
with read_members (fuel : nat) (acc : list (string * json)) (s : list ascii)
  : option (json * list ascii) :=
  match fuel with
  | O => None
  | S f =>
      match read_string s with
      | None => None
      | Some (k, r) =>
          match expect ":"%char r with
          | None => None
          | Some r1 =>
              match read_value f r1 with
              | None => None
              | Some (v, r2) =>
                  match expect ","%char r2 with
                  | Some r3 => read_members f ((k, v) :: acc) r3
                  | None =>
                      match expect "}"%char r2 with
                      | Some r3 => Some (JObj (rev ((k, v) :: acc)), r3)
                      | None => None
                      end
                  end
              end
          end
      end
  end.

(** A whole document: one value and nothing but white space after it. *)
Definition parse (s : list ascii) : option json :=
  match read_value (S (length s)) s with
  | Some (j, r) => match skip_ws r with [] => Some j | _ => None end
  | None => None
  end.

(** Field access [d[k]] on a JSON object. *)
Fixpoint assoc (k : string) (kvs : list (string * json)) : option json :=
  match kvs with
  | [] => None
  | (k', v) :: r => if String.eqb k k' then Some v else assoc k r
  end.

Definition get (k : string) (j : json) : option json :=
  match j with JObj kvs => assoc k kvs | _ => None end.

Definition as_arr (j : json) : option (list json) :=
  match j with JArr l => Some l | _ => None end.

Definition as_str (j : json) : option string :=
  match j with JStr s => Some s | _ => None end.

Definition as_int (j : json) : option Z :=
  match j with JNum z => Some z | _ => None end.

End Json.

(** The descriptor is written in text mode; the dump is ASCII, so its
    bytes are the character codes. *)
Definition text_bytes (s : string) : list Z :=
  map (fun a => Z.of_nat (Ascii.nat_of_ascii a)) (list_ascii_of_string s).

(** A JSON reader applied to the bytes of a file: bytes above 127 are not
    ASCII and are refused. *)
Definition parse_bytes (b : list Z) : option json :=
  if forallb (fun z => (0 <=? z) && (z <? 128)) b
  then Json.parse (map (fun z => Ascii.ascii_of_nat (Z.to_nat z)) b)
  else None.

(* ================================================================== *)
(** ** The world a script runs in *)

(** How the disk answers a write to a given path: it succeeds, [open]
    fails before truncating, or the write fails after [k] bytes (the file
    is left truncated to those bytes). *)
Inductive wfault : Type :=
| WOk
| WOpenFail
| WPartial (k : nat).

Inductive exn : Type :=
| FileNotFoundError
| FileExistsError
| IsADirectoryError
| OSError
| InterpreterError.

(** The I/O operations a run performs, in order. *)
Inductive event : Type :=
| EMakedir (d : string)
| ELoad (p : string)
| EWrite (p : string)
| EWriteFailed (p : string).

Record world : Type := mkWorld {
  files : gmap string (list Z);
  dirs : gset string;
  faults : string -> wfault;
  rng : nat -> Z;          (** the float64 draws numpy's generator yields *)
  rng_pos : nat;           (** how many draws have been consumed *)
  log : list event
}.

Definition with_files (fs : gmap string (list Z)) (w : world) : world :=
  mkWorld fs (dirs w) (faults w) (rng w) (rng_pos w) (log w).
Definition with_dirs (ds : gset string) (w : world) : world :=
  mkWorld (files w) ds (faults w) (rng w) (rng_pos w) (log w).
Definition with_rng_pos (n : nat) (w : world) : world :=
  mkWorld (files w) (dirs w) (faults w) (rng w) n (log w).
Definition emit (ev : event) (w : world) : world :=
  mkWorld (files w) (dirs w) (faults w) (rng w) (rng_pos w) (log w ++ [ev]).

(* ================================================================== *)
(** ** A state and exception monad *)

Inductive res (A : Type) : Type :=
| Ok (a : A)
| Err (e : exn).
Arguments Ok {A} a.
Arguments Err {A} e.

Definition M (A : Type) : Type := world -> res A * world.

Definition retM {A} (a : A) : M A := fun w => (Ok a, w).

Definition bindM {A B} (m : M A) (k : A -> M B) : M B :=
  fun w =>
    match m w with
    | (Ok a, w') => k a w'
    | (Err e, w') => (Err e, w')
    end.

#[global] Instance M_ret : MRet M := fun A a => retM a.
#[global] Instance M_bind : MBind M := fun A B k m => bindM m k.

(* ================================================================== *)
(** ** Library calls *)

(** [os.makedirs(path, exist_ok=True)], given the directories of the path
    from the outermost one: an existing directory is kept, a file in the
    way raises, and the disk may refuse the creation. *)
Definition makedir (d : string) : M unit :=
  fun w =>
    if decide (d ∈ dirs w) then (Ok tt, w)
    else match files w !! d with
         | Some _ => (Err FileExistsError, w)
         | None =>
             match faults w d with
             | WOk => (Ok tt, emit (EMakedir d) (with_dirs (dirs w ∪ {[d]}) w))
             | _ => (Err OSError, w)
             end
         end.

Fixpoint os_makedirs (ds : list string) : M unit :=
  match ds with
  | [] => retM tt
  | d :: r => bindM (makedir d) (fun _ => os_makedirs r)
  end.

(** [tf.lite.Interpreter(model_path=p)], [allocate_tensors()] and the
    reads of [get_input_details()[0]] and [get_output_details()[0]].  The
    runtime's verdict on the bytes of the file is [tflite_ok]; the details
    read are only printed, so the call returns nothing. *)
Definition interpreter_load (tflite_ok : list Z -> bool) (p : string) : M unit :=
  fun w =>
    match files w !! p with
    | Some b =>
        if tflite_ok b then (Ok tt, emit (ELoad p) w)
        else (Err InterpreterError, w)
    | None => (Err InterpreterError, w)
    end.

Definition path_join (d name : string) : string := (d ++ "/" ++ name)%string.

(** [open(d + "/" + name, 'w')] followed by the writes of [c] (for the
    descriptor the writes of [json.dump], for the blob [ndarray.tofile]). *)
Definition open_write (d name : string) (c : list Z) : M unit :=
  fun w =>
    let p := path_join d name in
    if decide (d ∈ dirs w) then
      if decide (p ∈ dirs w) then (Err IsADirectoryError, emit (EWriteFailed p) w)
      else match faults w p with
           | WOk => (Ok tt, emit (EWrite p) (with_files (<[p := c]> (files w)) w))
           | WOpenFail => (Err OSError, emit (EWriteFailed p) w)
           | WPartial k =>
               (Err OSError,
                emit (EWriteFailed p) (with_files (<[p := firstn k c]> (files w)) w))
           end
    else (Err FileNotFoundError, emit (EWriteFailed p) w).

(** A float32 bit pattern in the byte order [tofile] uses on a
    little-endian host. *)
Definition le32 (x : Z) : list Z :=
  [Z.land x 255; Z.land (Z.shiftr x 8) 255;
   Z.land (Z.shiftr x 16) 255; Z.land (Z.shiftr x 24) 255].

Definition tofile (xs : list Z) : list Z := flat_map le32 xs.

(** An ndarray: its shape and its elements in row-major (C) order, which
    is also what [flatten()] returns. *)
Record ndarray : Type := { shape : list Z; data : list Z }.

Definition flatten (a : ndarray) : list Z := data a.

Definition shape_size (dims : list Z) : Z := fold_right Z.mul 1 dims.

(** [np.random.randn] on the dimensions [dims]: the next [prod dims] draws, filled in C
    order. *)
Definition np_random_randn (dims : list Z) : M ndarray :=
  fun w =>
    let n := Z.to_nat (shape_size dims) in
    (Ok {| shape := dims; data := map (fun i => rng w (rng_pos w + i)%nat) (seq 0 n) |},
     with_rng_pos (rng_pos w + n)%nat w).

Definition amap (f : Z -> Z) (a : ndarray) : ndarray :=
  {| shape := shape a; data := map f (data a) |}.

(* ================================================================== *)
(** ** The two scripts *)

Definition input_path : string := "./assets/64x3-cards.tflite".
Definition out_dir : string := "./assets/cards_model".
Definition model_path : string := "./assets/cards_model/model.json".
Definition blob_path : string := "./assets/cards_model/group1-shard1of1.bin".

(** The directories [os.makedirs('./assets/cards_model', exist_ok=True)]
    walks through, outermost first. *)
Definition out_dirs : list string := ["./assets"; out_dir].

Definition dim (n : Z) : json := JObj [("size", JStr (Json.show_int n))].

(** The [model_json] literal of [convert_tflite_to_tfjs]. *)
Definition model_json_A : json :=
  JObj [("format", JStr "graph-model");
        ("generatedBy", JStr "python-converter");
        ("convertedBy", JStr "Custom Script 1.0.0");
        ("signature", JObj []);
        ("userDefinedMetadata", JObj []);
        ("modelTopology",
          JObj [("node", JArr []);
                ("library", JObj []);
                ("versions", JObj [("producer", JNum 1)])]);
        ("weightsManifest",
          JArr [JObj [("paths", JArr [JStr "group1-shard1of1.bin"]);
                      ("weights", JArr [])]])].

Definition weight_entry (name : string) (dims : list Z) : json :=
  JObj [("name", JStr name); ("shape", JArr (map JNum dims));
        ("dtype", JStr "float32")].

(** The [model_json] literal of [create_tfjs_model]. *)
Definition model_json_B : json :=
  JObj [("format", JStr "graph-model");
        ("generatedBy", JStr "manual-converter");
        ("convertedBy", JStr "TensorFlow.js Converter 4.0.0");
        ("signature",
          JObj [("inputs",
                  JObj [("input",
                          JObj [("name", JStr "input:0");
                                ("dtype", JStr "DT_FLOAT");
                                ("tensorShape",
                                  JObj [("dim", JArr [dim 1; dim 70; dim 70; dim 1])])])]);
                ("outputs",
                  JObj [("output",
                          JObj [("name", JStr "output:0");
                                ("dtype", JStr "DT_FLOAT");
                                ("tensorShape",
                                  JObj [("dim", JArr [dim 1; dim 52])])])])]);
        ("userDefinedMetadata",
          JObj [("inputShape", JStr "[1,70,70,1]");
                ("outputShape", JStr "[1,52]");
                ("classes", JStr "52")]);
        ("modelTopology",
          JObj [("node",
                  JArr [JObj [("name", JStr "input");
                              ("op", JStr "Placeholder");
                              ("attr",
                                JObj [("dtype", JObj [("type", JStr "DT_FLOAT")]);
                                      ("shape",
                                        JObj [("shape",
                                                JObj [("dim", JArr [dim 1; dim 70; dim 70; dim 1])])])])];
                        JObj [("name", JStr "output");
                              ("op", JStr "Identity");
                              ("input", JArr [JStr "dense/BiasAdd"]);
                              ("attr", JObj [("T", JObj [("type", JStr "DT_FLOAT")])])]]);
                ("library", JObj []);
                ("versions", JObj [("producer", JNum 1)])]);
        ("weightsManifest",
          JArr [JObj [("paths", JArr [JStr "group1-shard1of1.bin"]);
                      ("weights",
                        JArr [weight_entry "conv2d/kernel" [3; 3; 1; 32];
                              weight_entry "conv2d/bias" [32];
                              weight_entry "dense/kernel" [1152; 52];
                              weight_entry "dense/bias" [52]])]])].

Section Scripts.

(** What the TFLite runtime accepts: the interpreter loads the bytes,
    allocates its tensors and has an input and an output tensor. *)
Variable tflite_ok : list Z -> bool.
(** [astype(np.float32)] on one float64 draw, as a float32 bit pattern. *)
Variable to_f32 : Z -> Z.
(** A float32 times the Python float [0.1], rounded to float32. *)
Variable f32_mul_tenth : Z -> Z.

(** [convert_tflite_to_tfjs] of [src/convert_tflite.py]; the prints are
    omitted. *)
Definition convert_tflite_to_tfjs : M unit :=
  interpreter_load tflite_ok input_path ;;
  os_makedirs out_dirs ;;
  open_write out_dir "model.json" (text_bytes (Json.dump 0 model_json_A)) ;;
  open_write out_dir "group1-shard1of1.bin" (tofile []).

(** [create_tfjs_model] of [src/manual_convert.py].  [all_weights] is
    already float32, so its [astype(np.float32)] returns the same values;
    the final listing of the directory only reads it and prints. *)
Definition create_tfjs_model : M unit :=
  os_makedirs out_dirs ;;
  interpreter_load tflite_ok input_path ;;
  open_write out_dir "model.json" (text_bytes (Json.dump 0 model_json_B)) ;;
  r1 ← np_random_randn [3; 3; 1; 32];
  let conv_kernel := amap f32_mul_tenth (amap to_f32 r1) in
  r2 ← np_random_randn [32];
  let conv_bias := amap f32_mul_tenth (amap to_f32 r2) in
  r3 ← np_random_randn [1152; 52];
  let dense_kernel := amap f32_mul_tenth (amap to_f32 r3) in
  r4 ← np_random_randn [52];
  let dense_bias := amap f32_mul_tenth (amap to_f32 r4) in
  let all_weights := flatten conv_kernel ++ flatten conv_bias ++
                     flatten dense_kernel ++ flatten dense_bias in
  open_write out_dir "group1-shard1of1.bin" (tofile all_weights).

End Scripts.

(* ================================================================== *)
(** ** Observations on runs *)

Definition event_path (ev : event) : option string :=
  match ev with
  | EWrite p | EWriteFailed p => Some p
  | _ => None
  end.

(** The paths of the completed writes of a trace, in order. *)
Fixpoint written (tr : list event) : list string :=
  match tr with
  | [] => []
  | EWrite p :: r => p :: written r
  | _ :: r => written r
  end.

(** Every operation on the blob comes after the descriptor has been
    completely written. *)
Definition blob_after_descriptor (tr : list event) : Prop :=
  forall pre ev post, tr = pre ++ ev :: post ->
    event_path ev = Some blob_path -> EWrite model_path ∈ pre.

(** The four shapes of the weights manifest, in order. *)
Definition weight_shapes : list (list Z) := [[3; 3; 1; 32]; [32]; [1152; 52]; [52]].

(** Tensors of the given shapes drawn one after the other from the
    generator, each element cast by [f] and then scaled by [g], flattened
    and concatenated. *)
Fixpoint draw_tensors (f g : Z -> Z) (draw : nat -> Z) (pos : nat)
    (shs : list (list Z)) : list Z :=
  match shs with
  | [] => []
  | dims :: r =>
      let n := Z.to_nat (shape_size dims) in
      map g (map f (map (fun i => draw (pos + i)%nat) (seq 0 n))) ++
      draw_tensors f g draw (pos + n)%nat r
  end.

(** Accessors on a parsed descriptor. *)
Definition topology_nodes (j : json) : option (list json) :=
  t ← Json.get "modelTopology" j; n ← Json.get "node" t; Json.as_arr n.

Definition manifest_groups (j : json) : option (list json) :=
  m ← Json.get "weightsManifest" j; Json.as_arr m.

Definition group_weights (g : json) : option (list json) :=
  ws ← Json.get "weights" g; Json.as_arr ws.

Definition entry_shape (e : json) : option (list Z) :=
  s ← Json.get "shape" e; l ← Json.as_arr s; mapM Json.as_int l.

Definition entry_name (e : json) : option string :=
  s ← Json.get "name" e; Json.as_str s.

(** All weight entries of the manifest, group after group. *)
Definition manifest_entries (j : json) : option (list json) :=
  gs ← manifest_groups j; ls ← mapM group_weights gs; mret (concat ls).

Definition manifest_shapes (j : json) : option (list (list Z)) :=
  es ← manifest_entries j; mapM entry_shape es.

Definition manifest_names (j : json) : option (list string) :=
  es ← manifest_entries j; mapM entry_name es.

Definition node_name (n : json) : option string :=
  s ← Json.get "name" n; Json.as_str s.
Definition node_op (n : json) : option string :=
  s ← Json.get "op" n; Json.as_str s.
Definition node_inputs (n : json) : option (list string) :=
  i ← Json.get "input" n; l ← Json.as_arr i; mapM Json.as_str l.

(* ================================================================== *)
(** ** Lemmas on the library calls *)

Lemma interpreter_load_cases tok p w :
  interpreter_load tok p w = (Ok tt, emit (ELoad p) w) \/
  interpreter_load tok p w = (Err InterpreterError, w).
Proof.
  unfold interpreter_load. destruct (files w !! p) as [b|]; [|by right].
  destruct (tok b); [by left | by right].
Qed.

Lemma interpreter_load_fails tok p w :
  match files w !! p with Some b => tok b = false | None => True end ->
  interpreter_load tok p w = (Err InterpreterError, w).
Proof.
  unfold interpreter_load. destruct (files w !! p) as [b|]; [|done].
  intros ->. done.
Qed.

Lemma open_write_cases d n c w :
  open_write d n c w =
    (Ok tt, emit (EWrite (path_join d n)) (with_files (<[path_join d n := c]> (files w)) w)) \/
  exists e fs, open_write d n c w = (Err e, emit (EWriteFailed (path_join d n)) (with_files fs w)) /\
    forall q, q <> path_join d n -> fs !! q = files w !! q.
Proof.
  unfold open_write. destruct (decide (d ∈ dirs w)).
  - destruct (decide (path_join d n ∈ dirs w)).
    + right. exists IsADirectoryError, (files w). done.
    + destruct (faults w (path_join d n)) as [| |k].
      * by left.
      * right. exists OSError, (files w). done.
      * right. exists OSError, (<[path_join d n := firstn k c]> (files w)).
        split; [done|]. intros q Hq. by rewrite lookup_insert_ne.
  - right. exists FileNotFoundError, (files w). done.
Qed.

Definition no_path (ev : event) : Prop := event_path ev = None.

(** What [os_makedirs] changes: only directories and the log, with events
    that touch no file. *)
Definition makedirs_effect (ds : list string) (r : res unit) (w w' : world) : Prop :=
  files w' = files w /\ rng w' = rng w /\ rng_pos w' = rng_pos w /\
  faults w' = faults w /\
  (exists tr, log w' = log w ++ tr /\ Forall no_path tr) /\
  (r = Ok tt -> dirs w' = dirs w ∪ list_to_set ds).

Lemma os_makedirs_cases ds w :
  exists r w', os_makedirs ds w = (r, w') /\ makedirs_effect ds r w w'.
Proof.
  revert w. induction ds as [|d ds IH]; intros w.
  - exists (Ok tt), w. repeat split; try done.
    + exists []. by rewrite app_nil_r.
    + intros _. cbn. set_solver.
  - cbn. unfold bindM, makedir.
    destruct (decide (d ∈ dirs w)) as [Hin|Hin].
    + destruct (IH w) as (r & w' & Hr & Hf & Hrng & Hpos & Hfl & Htr & Hd).
      exists r, w'. rewrite Hr. repeat split; try done.
      intros Hok. rewrite (Hd Hok). set_solver.
    + destruct (files w !! d) as [b|].
      * exists (Err FileExistsError), w. repeat split; try done.
        exists []. by rewrite app_nil_r.
      * destruct (faults w d) as [| |k] eqn:Hfd.
        2, 3: exists (Err OSError), w; repeat split; try done;
              exists []; by rewrite app_nil_r.
        set (w1 := emit (EMakedir d) (with_dirs (dirs w ∪ {[d]}) w)).
        destruct (IH w1) as (r & w' & Hr & Hf & Hrng & Hpos & Hfl & Htr & Hd).
        exists r, w'. rewrite Hr. repeat split; try done.
        destruct Htr as (tr & Hl & Hnp).
        exists (EMakedir d :: tr). rewrite Hl. cbn. split.
        -- by rewrite <- app_assoc.
        -- constructor; [done | exact Hnp].
        -- intros Hok. rewrite (Hd Hok). cbn. set_solver.
Qed.

Definition sum_list (l : list Z) : Z := fold_right Z.add 0 l.

(** The length of the blob of a successful run of [create_tfjs_model]. *)
Definition blob_length (w : world) : option Z :=
  b ← files w !! blob_path; mret (Z.of_nat (length b)).

(** Whether the TFLite runtime refuses the input: it is absent (or not a
    file), or the runtime does not load its bytes. *)
Definition load_fails (tflite_ok : list Z -> bool) (w : world) : Prop :=
  match files w !! input_path with Some b => tflite_ok b = false | None => True end.

(** What a successful run leaves: the two outputs written in the output
    directory, every other file as it was, the output directory present. *)
Definition writes_two_outputs (w w' : world) : Prop :=
  (forall q, q <> model_path -> q <> blob_path -> files w' !! q = files w !! q) /\
  is_Some (files w' !! model_path) /\ is_Some (files w' !! blob_path) /\
  out_dir ∈ dirs w' /\ dirs w' = dirs w ∪ list_to_set out_dirs /\
  exists tr, log w' = log w ++ tr /\ written tr = [model_path; blob_path].

(** The order of the operations of a run [r] started in [w] whose
    descriptor is [desc]: the blob is only touched once the descriptor is
    complete, and a run whose blob write fails has not completed it and
    leaves the complete descriptor. *)
Definition run_ordered (r : res unit * world) (w : world) (desc : list Z) : Prop :=
  exists tr, log (snd r) = log w ++ tr /\ blob_after_descriptor tr /\
    (EWriteFailed blob_path ∈ tr ->
       fst r <> Ok tt /\ files (snd r) !! model_path = Some desc /\
       (EWrite blob_path ∉ tr)).

(* ================================================================== *)
(** ** Lemmas on data *)

Lemma length_tofile xs : length (tofile xs) = (4 * length xs)%nat.
Proof. unfold tofile. induction xs as [|x xs IH]; cbn; [done|]. rewrite IH. lia. Qed.

Lemma length_draw_tensors f g d pos shs :
  Forall (fun s => 0 <= shape_size s) shs ->
  Z.of_nat (length (draw_tensors f g d pos shs)) = sum_list (map shape_size shs).
Proof.
  revert pos. induction shs as [|s shs IH]; intros pos Hs; cbn; [done|].
  inversion Hs as [|? ? Hs0 Hr]; subst.
  rewrite length_app, !length_map, length_seq, Nat2Z.inj_add, IH by done.
  rewrite Z2Nat.id by done. reflexivity.
Qed.

Lemma weight_shapes_nonneg : Forall (fun s => 0 <= shape_size s) weight_shapes.
Proof. repeat constructor; cbn; lia. Qed.

Lemma parse_descriptor_A :
  parse_bytes (text_bytes (Json.dump 0 model_json_A)) = Some model_json_A.
Proof. vm_compute. reflexivity. Qed.

Lemma parse_descriptor_B :
  parse_bytes (text_bytes (Json.dump 0 model_json_B)) = Some model_json_B.
Proof. vm_compute. reflexivity. Qed.

Lemma model_path_ne_blob_path : model_path <> blob_path.
Proof. discriminate. Qed.

Lemma outputs_lookup (c1 c2 : list Z) (fs : gmap string (list Z)) :
  <[blob_path := c2]> (<[model_path := c1]> fs) !! model_path = Some c1 /\
  <[blob_path := c2]> (<[model_path := c1]> fs) !! blob_path = Some c2 /\
  forall q, q <> model_path -> q <> blob_path ->
    <[blob_path := c2]> (<[model_path := c1]> fs) !! q = fs !! q.
Proof.
  split; [|split].
  - rewrite lookup_insert_ne by done. by rewrite lookup_insert_eq.
  - by rewrite lookup_insert_eq.
  - intros q H1 H2. rewrite !lookup_insert_ne by congruence. done.
Qed.

Lemma blob_after_descriptor_none tr :
  Forall (fun ev => event_path ev <> Some blob_path) tr -> blob_after_descriptor tr.
Proof.
  intros Hf pre ev post -> Hev. exfalso.
  apply Forall_app in Hf as [_ Hf]. inversion Hf; subst. done.
Qed.

Lemma blob_after_descriptor_write tr1 tr2 :
  Forall (fun ev => event_path ev <> Some blob_path) tr1 ->
  blob_after_descriptor (tr1 ++ EWrite model_path :: tr2).
Proof.
  intros Hf pre ev post Heq Hev.
  apply app_eq_app in Heq as (l & [[Htr Hl] | [Hpre Hl]]); subst.
  - exfalso. destruct l as [|x l]; cbn in Hl; injection Hl as Hx _; subst.
    + done.
    + apply Forall_app in Hf as [_ Hf]. inversion Hf; subst. done.
  - destruct l as [|x l]; cbn in Hl; injection Hl as Hx _; subst.
    + done.
    + apply elem_of_app. right. by left.
Qed.

Lemma no_path_not_blob tr :
  Forall no_path tr -> Forall (fun ev => event_path ev <> Some blob_path) tr.
Proof. intros Hf. eapply Forall_impl; [exact Hf|]. unfold no_path. intros ev ->. done. Qed.

Lemma no_path_written tr : Forall no_path tr -> written tr = [].
Proof.
  induction 1 as [|ev tr Hev _ IH]; [done|].
  destruct ev; cbn in *; done.
Qed.

Lemma written_app l1 l2 : written (l1 ++ l2) = written l1 ++ written l2.
Proof. induction l1 as [|[] l1 IH]; cbn; rewrite ?IH; done. Qed.

Lemma no_path_not_in p tr : Forall no_path tr -> (EWriteFailed p ∉ tr) /\ (EWrite p ∉ tr).
Proof.
  intros Hf. split; intros Hin; rewrite Forall_forall in Hf;
    apply Hf in Hin; done.
Qed.

(* ================================================================== *)
(** ** Runs of the scripts *)

Ltac world_simpl :=
  cbn [files dirs faults rng rng_pos log emit with_files with_dirs with_rng_pos] in *.

(** One library call of a run: split on its outcomes. *)
Ltac step :=
  unfold mbind, M_bind, bindM; cbv beta iota zeta;
  lazymatch goal with
  | |- context [interpreter_load ?t ?p ?w] =>
      let H := fresh "Hload" in
      destruct (interpreter_load_cases t p w) as [H|H]; rewrite H; cbv beta iota
  | |- context [os_makedirs ?ds ?w] =>
      let r := fresh "r" in let w' := fresh "w" in
      let H := fresh "Hmk" in let He := fresh "Heff" in
      destruct (os_makedirs_cases ds w) as (r & w' & H & He); rewrite H;
      destruct r as [[]|?]; cbv beta iota
  | |- context [open_write ?d ?n ?c ?w] =>
      let H := fresh "Hw" in let Hfs := fresh "Hfs" in
      let e := fresh "e" in let fs := fresh "fs" in
      destruct (open_write_cases d n c w) as [H | (e & fs & H & Hfs)]; rewrite H;
      cbv beta iota
  | |- context [np_random_randn ?d ?w] =>
      unfold np_random_randn at 1; cbv beta iota zeta
  end;
  cbn [files dirs faults rng rng_pos log emit with_files with_dirs with_rng_pos].

Lemma path_join_model : path_join out_dir "model.json" = model_path.
Proof. reflexivity. Qed.

Lemma path_join_blob : path_join out_dir "group1-shard1of1.bin" = blob_path.
Proof. reflexivity. Qed.

Section Runs.

Variable tflite_ok : list Z -> bool.
Variable to_f32 : Z -> Z.
Variable f32_mul_tenth : Z -> Z.

Lemma convert_tflite_to_tfjs_ok w w' :
  convert_tflite_to_tfjs tflite_ok w = (Ok tt, w') ->
  files w' = <[blob_path := tofile []]>
               (<[model_path := text_bytes (Json.dump 0 model_json_A)]> (files w)) /\
  dirs w' = dirs w ∪ list_to_set out_dirs /\
  exists tr, log w' = log w ++ ELoad input_path :: tr ++ [EWrite model_path; EWrite blob_path] /\
    Forall no_path tr.
Proof.
  unfold convert_tflite_to_tfjs. repeat step.
  all: intros Heq; try discriminate.
  apply (f_equal snd) in Heq; cbn [snd] in Heq; subst w'. rewrite ?path_join_model, ?path_join_blob.
  destruct Heff as (Hf & _ & _ & _ & (tr & Hl & Hnp) & Hd).
  specialize (Hd eq_refl). world_simpl.
  split; [by rewrite Hf|]. split; [by rewrite Hd|].
  exists tr. split; [|done]. rewrite Hl. by rewrite <- !app_assoc.
Qed.

Lemma create_tfjs_model_ok w w' :
  create_tfjs_model tflite_ok to_f32 f32_mul_tenth w = (Ok tt, w') ->
  files w' = <[blob_path := tofile (draw_tensors to_f32 f32_mul_tenth (rng w) (rng_pos w)
                                      weight_shapes)]>
               (<[model_path := text_bytes (Json.dump 0 model_json_B)]> (files w)) /\
  dirs w' = dirs w ∪ list_to_set out_dirs /\
  exists tr, log w' = log w ++ tr ++ [ELoad input_path; EWrite model_path; EWrite blob_path] /\
    Forall no_path tr.
Proof.
  unfold create_tfjs_model. repeat step.
  all: intros Heq; try discriminate.
  apply (f_equal snd) in Heq; cbn [snd] in Heq; subst w'. rewrite ?path_join_model, ?path_join_blob.
  destruct Heff as (Hf & Hr & Hp & _ & (tr & Hl & Hnp) & Hd).
  specialize (Hd eq_refl). world_simpl.
  split; [|split; [done|]].
  - rewrite Hf, Hr, Hp. do 3 f_equal.
  - exists tr. split; [|done]. rewrite Hl. by rewrite <- !app_assoc.
Qed.

End Runs.

Lemma blob_length_of w b : files w !! blob_path = Some b -> blob_length w = Some (Z.of_nat (length b)).
Proof. unfold blob_length. intros ->. reflexivity. Qed.

Lemma manifest_B :
  manifest_shapes model_json_B = Some weight_shapes /\
  manifest_names model_json_B =
    Some ["conv2d/kernel"; "conv2d/bias"; "dense/kernel"; "dense/bias"]%string.
Proof. split; reflexivity. Qed.

(** Closing tactics for traces: an operation on the blob is absent from a
    trace made of load, directory and descriptor events. *)
Ltac trace_absurd :=
  match goal with
  | H : _ ∈ _ ++ _ |- _ => apply elem_of_app in H as [H|H]; trace_absurd
  | H : _ ∈ _ :: _ |- _ => apply elem_of_cons in H as [H|H]; [discriminate H | trace_absurd]
  | H : _ ∈ [] |- _ => apply elem_of_nil in H; contradiction
  | H : ?x ∈ ?tr, Hnp : Forall no_path ?tr |- _ =>
      rewrite Forall_forall in Hnp; apply Hnp in H; unfold no_path in H; discriminate H
  end.

Ltac not_blob_events :=
  repeat (first [apply Forall_app; split | constructor]);
  try (apply no_path_not_blob; assumption);
  cbn; discriminate.

(* ================================================================== *)
(** ** When a run succeeds, and what any run may change *)

Lemma bindM_ok {A B} (m : M A) (k : A -> M B) w b w' :
  bindM m k w = (Ok b, w') <-> exists a w1, m w = (Ok a, w1) /\ k a w1 = (Ok b, w').
Proof.
  unfold bindM. destruct (m w) as [[a|e] w1]; split.
  - intros H. by exists a, w1.
  - intros (a' & w2 & [= -> ->] & H). exact H.
  - discriminate.
  - intros (? & ? & [=] & _).
Qed.

Lemma interpreter_load_ok tok p w w' :
  interpreter_load tok p w = (Ok tt, w') <->
  (match files w !! p with Some b => tok b = true | None => False end) /\
  w' = emit (ELoad p) w.
Proof.
  unfold interpreter_load. destruct (files w !! p) as [b|]; [destruct (tok b)|].
  all: split; [intros [= <-] | intros [? ->]]; done.
Qed.

(** [os.makedirs] can pass through a directory [d]: it exists, or nothing
    is in the way and the disk lets it be created. *)
Definition dir_ready (w : world) (d : string) : Prop :=
  d ∈ dirs w \/ (files w !! d = None /\ faults w d = WOk).

Lemma dir_ready_grow w d x :
  dir_ready w d ->
  dir_ready (emit (EMakedir d) (with_dirs (dirs w ∪ {[d]}) w)) x <-> dir_ready w x.
Proof.
  unfold dir_ready. cbn. intros Hd.
  destruct (decide (x = d)) as [->|Hx]; [set_solver|].
  rewrite elem_of_union, elem_of_singleton. tauto.
Qed.

Lemma os_makedirs_ok_iff ds w :
  (exists w', os_makedirs ds w = (Ok tt, w')) <-> Forall (dir_ready w) ds.
Proof.
  revert w. induction ds as [|d ds IH]; intros w.
  - split; [constructor | intros _; by eexists].
  - cbn. unfold bindM, makedir. rewrite Forall_cons.
    destruct (decide (d ∈ dirs w)) as [Hin|Hin].
    + cbv beta iota. rewrite IH. assert (dir_ready w d) by (left; done). tauto.
    + cbv beta iota. destruct (files w !! d) as [b|] eqn:Hf.
      * split; [intros (? & [=]) | intros [[?|[? ?]] _]; congruence].
      * destruct (faults w d) as [| |k] eqn:Hfd.
        -- rewrite IH. assert (Hr : dir_ready w d) by (right; done).
           split; [intros H; split; [exact Hr|] | intros [_ H]];
             eapply Forall_impl; try exact H; intros x; apply dir_ready_grow; exact Hr.
        -- split; [intros (? & [=]) | intros [[?|[? ?]] _]; congruence].
        -- split; [intros (? & [=]) | intros [[?|[? ?]] _]; congruence].
Qed.

Lemma os_makedirs_ok ds w w' :
  os_makedirs ds w = (Ok tt, w') -> makedirs_effect ds (Ok tt) w w'.
Proof.
  destruct (os_makedirs_cases ds w) as (r & w'' & Hr & Heff).
  rewrite Hr. intros [= -> ->]. exact Heff.
Qed.

Lemma open_write_ok d n c w w' :
  open_write d n c w = (Ok tt, w') <->
  (d ∈ dirs w /\ (path_join d n ∉ dirs w) /\ faults w (path_join d n) = WOk) /\
  w' = emit (EWrite (path_join d n)) (with_files (<[path_join d n := c]> (files w)) w).
Proof.
  unfold open_write. cbv zeta.
  destruct (decide (d ∈ dirs w)) as [Hd|Hd];
    [destruct (decide (path_join d n ∈ dirs w)) as [Hp|Hp]|].
  - split; [discriminate | intros [(_ & ? & _) _]; done].
  - destruct (faults w (path_join d n)) as [| |k].
    + split; [intros [= <-]; done | intros [_ ->]; done].
    + split; [discriminate | intros [(_ & _ & ?) _]; done].
    + split; [discriminate | intros [(_ & _ & ?) _]; done].
  - split; [discriminate | intros [(? & _) _]; done].
Qed.

Lemma bindM_randn {B} dims (k : ndarray -> M B) w :
  bindM (np_random_randn dims) k w =
  k {| shape := dims;
       data := map (fun i => rng w (rng_pos w + i)%nat) (seq 0 (Z.to_nat (shape_size dims))) |}
    (with_rng_pos (rng_pos w + Z.to_nat (shape_size dims))%nat w).
Proof. reflexivity. Qed.

(** What both scripts need of the world they start in: a loadable input
    model, an output directory that [os.makedirs] can reach, two output
    paths that are not directories and a disk that accepts both writes. *)
Definition run_ready (tflite_ok : list Z -> bool) (w : world) : Prop :=
  match files w !! input_path with Some b => tflite_ok b = true | None => False end /\
  Forall (dir_ready w) out_dirs /\
  (model_path ∉ dirs w) /\ faults w model_path = WOk /\
  (blob_path ∉ dirs w) /\ faults w blob_path = WOk.

Lemma out_dirs_not_outputs : (model_path ∉ list_to_set (C := gset string) out_dirs) /\
  (blob_path ∉ list_to_set (C := gset string) out_dirs).
Proof. unfold out_dirs. cbn. split; set_solver. Qed.

Lemma out_dir_in_out_dirs : out_dir ∈ list_to_set (C := gset string) out_dirs.
Proof. unfold out_dirs. cbn. set_solver. Qed.

Lemma dir_ready_emit ev w d : dir_ready (emit ev w) d <-> dir_ready w d.
Proof. done. Qed.

Section Success.

Variable tflite_ok : list Z -> bool.
Variable to_f32 : Z -> Z.
Variable f32_mul_tenth : Z -> Z.

Lemma convert_tflite_to_tfjs_ready w :
  (exists w', convert_tflite_to_tfjs tflite_ok w = (Ok tt, w')) <-> run_ready tflite_ok w.
Proof.
  destruct out_dirs_not_outputs as [Hm Hb].
  unfold convert_tflite_to_tfjs, mbind, M_bind. split.
  - intros (w' & H).
    apply bindM_ok in H as ([] & w1 & H1 & H). apply interpreter_load_ok in H1 as [Hl ->].
    apply bindM_ok in H as ([] & w2 & H2 & H).
    assert (Hr : Forall (dir_ready (emit (ELoad input_path) w)) out_dirs)
      by (apply os_makedirs_ok_iff; eauto).
    apply os_makedirs_ok in H2 as (Hf2 & _ & _ & Hfl2 & _ & Hd2).
    specialize (Hd2 eq_refl). cbn in Hf2, Hfl2, Hd2.
    apply bindM_ok in H as ([] & w3 & H3 & H4).
    apply open_write_ok in H3 as ((_ & Hp3 & Hf3) & ->).
    apply open_write_ok in H4 as ((_ & Hp4 & Hf4) & _).
    cbn in Hp4, Hf4. rewrite path_join_model in Hp3, Hf3. rewrite path_join_blob in Hp4, Hf4.
    rewrite Hd2 in Hp3, Hp4. rewrite Hfl2 in Hf3, Hf4.
    split_and!; [exact Hl | | set_solver | exact Hf3 | set_solver | exact Hf4].
    eapply Forall_impl; [exact Hr|]. intros d. apply dir_ready_emit.
  - intros (Hl & Hr & Hpm & Hfm & Hpb & Hfb).
    destruct (os_makedirs_ok_iff out_dirs (emit (ELoad input_path) w)) as [_ Hmk].
    destruct Hmk as (w2 & H2).
    { eapply Forall_impl; [exact Hr|]. intros d. apply dir_ready_emit. }
    pose proof (os_makedirs_ok _ _ _ H2) as (Hf2 & _ & _ & Hfl2 & _ & Hd2).
    specialize (Hd2 eq_refl). cbn in Hf2, Hfl2, Hd2.
    eexists. apply bindM_ok. exists tt, (emit (ELoad input_path) w).
    split; [apply interpreter_load_ok; done|].
    apply bindM_ok. exists tt, w2. split; [exact H2|].
    apply bindM_ok. eexists tt, _. split.
    + apply open_write_ok. split; [|reflexivity].
      rewrite path_join_model, Hd2, Hfl2. split_and!; [|set_solver|done].
      apply elem_of_union_r, out_dir_in_out_dirs.
    + apply open_write_ok. split; [|reflexivity]. cbn.
      rewrite path_join_blob, Hd2, Hfl2. split_and!; [|set_solver|done].
      apply elem_of_union_r, out_dir_in_out_dirs.
Qed.

Lemma create_tfjs_model_ready w :
  (exists w', create_tfjs_model tflite_ok to_f32 f32_mul_tenth w = (Ok tt, w')) <->
  run_ready tflite_ok w.
Proof.
  destruct out_dirs_not_outputs as [Hm Hb].
  unfold create_tfjs_model, mbind, M_bind. split.
  - intros (w' & H).
    apply bindM_ok in H as ([] & w1 & H1 & H).
    assert (Hr : Forall (dir_ready w) out_dirs) by (apply os_makedirs_ok_iff; eauto).
    apply os_makedirs_ok in H1 as (Hf1 & _ & _ & Hfl1 & _ & Hd1).
    specialize (Hd1 eq_refl).
    apply bindM_ok in H as ([] & w2 & H2 & H). apply interpreter_load_ok in H2 as [Hl ->].
    apply bindM_ok in H as ([] & w3 & H3 & H).
    apply open_write_ok in H3 as ((_ & Hp3 & Hf3) & ->).
    do 4 (rewrite bindM_randn in H; cbv beta zeta in H).
    apply open_write_ok in H as ((_ & Hp4 & Hf4) & _).
    cbn [dirs faults emit with_files with_rng_pos] in Hp4, Hf4. rewrite path_join_model in Hp3, Hf3. rewrite path_join_blob in Hp4, Hf4.
    cbn in Hp3, Hf3. rewrite Hf1 in Hl. rewrite Hd1 in Hp3, Hp4. rewrite Hfl1 in Hf3, Hf4.
    split_and!; [exact Hl | exact Hr | set_solver | exact Hf3 | set_solver | exact Hf4].
  - intros (Hl & Hr & Hpm & Hfm & Hpb & Hfb).
    destruct (os_makedirs_ok_iff out_dirs w) as [_ Hmk].
    destruct (Hmk Hr) as (w1 & H1).
    pose proof (os_makedirs_ok _ _ _ H1) as (Hf1 & _ & _ & Hfl1 & _ & Hd1).
    specialize (Hd1 eq_refl).
    eexists. apply bindM_ok. exists tt, w1. split; [exact H1|].
    apply bindM_ok. exists tt, (emit (ELoad input_path) w1).
    split; [apply interpreter_load_ok; rewrite Hf1; done|].
    apply bindM_ok. eexists tt, _. split.
    + apply open_write_ok. split; [|reflexivity]. cbn.
      rewrite path_join_model, Hd1, Hfl1. split_and!; [|set_solver|done].
      apply elem_of_union_r, out_dir_in_out_dirs.
    + do 4 (rewrite bindM_randn; cbv beta zeta).
      apply open_write_ok. split; [|reflexivity]. cbn [dirs faults emit with_files with_rng_pos].
      rewrite path_join_blob, Hd1, Hfl1. split_and!; [|set_solver|done].
      apply elem_of_union_r, out_dir_in_out_dirs.
Qed.

End Success.

(* ================================================================== *)
(** ** What any run may change *)

(** What a run may change in any outcome: the two output files, and the
    directories [os.makedirs] creates; the disk and the draws of the
    generator stay as they are. *)
Definition frame (w w' : world) : Prop :=
  (forall q, q <> model_path -> q <> blob_path -> files w' !! q = files w !! q) /\
  dirs w ⊆ dirs w' /\ dirs w' ⊆ dirs w ∪ list_to_set out_dirs /\
  faults w' = faults w /\ rng w' = rng w.

Definition keeps {A} (m : M A) : Prop := forall w, frame w (snd (m w)).

Lemma frame_refl w : frame w w.
Proof. split_and!; [done | set_solver | set_solver | done | done]. Qed.

Lemma frame_trans w1 w2 w3 : frame w1 w2 -> frame w2 w3 -> frame w1 w3.
Proof.
  intros (Hf1 & Hd1 & Hu1 & Hfl1 & Hr1) (Hf2 & Hd2 & Hu2 & Hfl2 & Hr2).
  split_and!; [| set_solver | set_solver | congruence | congruence].
  intros q Hm Hb. rewrite Hf2, Hf1 by done. done.
Qed.

Lemma frame_emit ev w : frame w (emit ev w).
Proof. exact (frame_refl w). Qed.

Lemma keeps_bind {A B} (m : M A) (k : A -> M B) :
  keeps m -> (forall a, keeps (k a)) -> keeps (bindM m k).
Proof.
  intros Hm Hk w. unfold bindM. specialize (Hm w).
  destruct (m w) as [[a|e] w1]; cbn in *; [|exact Hm].
  eapply frame_trans; [exact Hm | apply Hk].
Qed.

Lemma keeps_load tok p : keeps (interpreter_load tok p).
Proof.
  intros w. destruct (interpreter_load_cases tok p w) as [H|H]; rewrite H; cbn;
    [apply frame_emit | apply frame_refl].
Qed.

Lemma os_makedirs_dirs ds w :
  dirs w ⊆ dirs (snd (os_makedirs ds w)) /\
  dirs (snd (os_makedirs ds w)) ⊆ dirs w ∪ list_to_set ds.
Proof.
  revert w. induction ds as [|d ds IH]; intros w; cbn; [set_solver|].
  unfold bindM, makedir.
  destruct (decide (d ∈ dirs w)); cbv beta iota.
  { destruct (IH w) as [H1 H2]. set_solver. }
  destruct (files w !! d); cbv beta iota; [cbn; set_solver|].
  destruct (faults w d); cbv beta iota; [|cbn; set_solver..].
  destruct (IH (emit (EMakedir d) (with_dirs (dirs w ∪ {[d]}) w))) as [H1 H2].
  cbn in H1, H2. set_solver.
Qed.

Lemma keeps_makedirs : keeps (os_makedirs out_dirs).
Proof.
  intros w. destruct (os_makedirs_cases out_dirs w) as (r & w' & Hr & Hf & Hrng & _ & Hfl & _).
  destruct (os_makedirs_dirs out_dirs w) as [Hd1 Hd2]. rewrite Hr in Hd1, Hd2 |- *. cbn in *.
  split_and!; [intros q _ _; by rewrite Hf | done | done | done | done].
Qed.

Lemma keeps_open_write name c :
  path_join out_dir name = model_path \/ path_join out_dir name = blob_path ->
  keeps (open_write out_dir name c).
Proof.
  intros Hp w. destruct (open_write_cases out_dir name c w) as [H | (e & fs & H & Hfs)];
    rewrite H; unfold frame; simpl.
  - split_and!; [| set_solver | set_solver | done | done].
    intros q Hm Hb. rewrite lookup_insert_ne; [done|]. intros <-. destruct Hp; congruence.
  - split_and!; [| set_solver | set_solver | done | done].
    intros q Hm Hb. apply Hfs. intros ->. destruct Hp; congruence.
Qed.

Lemma keeps_randn dims : keeps (np_random_randn dims).
Proof. intros w. split_and!; cbn; [done | set_solver | set_solver | done | done]. Qed.

Section Frame.

Variable tflite_ok : list Z -> bool.
Variable to_f32 : Z -> Z.
Variable f32_mul_tenth : Z -> Z.

Lemma keeps_convert_tflite_to_tfjs : keeps (convert_tflite_to_tfjs tflite_ok).
Proof.
  unfold convert_tflite_to_tfjs, mbind, M_bind.
  apply keeps_bind; [apply keeps_load | intros _].
  apply keeps_bind; [apply keeps_makedirs | intros _].
  apply keeps_bind; [apply keeps_open_write; by left | intros _].
  apply keeps_open_write. by right.
Qed.

Lemma keeps_create_tfjs_model : keeps (create_tfjs_model tflite_ok to_f32 f32_mul_tenth).
Proof.
  unfold create_tfjs_model, mbind, M_bind.
  apply keeps_bind; [apply keeps_makedirs | intros _].
  apply keeps_bind; [apply keeps_load | intros _].
  apply keeps_bind; [apply keeps_open_write; by left | intros _].
  do 4 (apply keeps_bind; [apply keeps_randn | intros ?]).
  apply keeps_open_write. by right.
Qed.

(** The world a successful run of either script leaves is ready for
    another run. *)
Lemma run_ready_after w w' c1 c2 :
  run_ready tflite_ok w -> frame w w' ->
  files w' = <[blob_path := c2]> (<[model_path := c1]> (files w)) ->
  dirs w' = dirs w ∪ list_to_set out_dirs ->
  run_ready tflite_ok w'.
Proof.
  intros (Hl & _ & Hpm & Hfm & Hpb & Hfb) (_ & _ & _ & Hfl & _) Hf Hd.
  destruct out_dirs_not_outputs as [Hm Hb].
  split_and!.
  - rewrite Hf, !lookup_insert_ne by discriminate. exact Hl.
  - apply Forall_forall. intros d Hin. left. rewrite Hd.
    apply elem_of_union_r, elem_of_list_to_set, Hin.
  - rewrite Hd. set_solver.
  - by rewrite Hfl.
  - rewrite Hd. set_solver.
  - by rewrite Hfl.
Qed.

Lemma convert_tflite_to_tfjs_frame_ok w w' :
  convert_tflite_to_tfjs tflite_ok w = (Ok tt, w') -> frame w w'.
Proof.
  intros H. pose proof (keeps_convert_tflite_to_tfjs w) as Hk. rewrite H in Hk. exact Hk.
Qed.

Lemma create_tfjs_model_frame_ok w w' :
  create_tfjs_model tflite_ok to_f32 f32_mul_tenth w = (Ok tt, w') -> frame w w'.
Proof.
  intros H. pose proof (keeps_create_tfjs_model w) as Hk. rewrite H in Hk. exact Hk.
Qed.

Lemma convert_tflite_to_tfjs_ready_after w w' :
  convert_tflite_to_tfjs tflite_ok w = (Ok tt, w') -> run_ready tflite_ok w'.
Proof.
  intros H.
  assert (Hr : run_ready tflite_ok w) by (apply convert_tflite_to_tfjs_ready; eauto).
  pose proof (convert_tflite_to_tfjs_frame_ok _ _ H) as Hfr.
  apply convert_tflite_to_tfjs_ok in H as (Hf & Hd & _).
  eapply run_ready_after; eauto.
Qed.

Lemma create_tfjs_model_ready_after w w' :
  create_tfjs_model tflite_ok to_f32 f32_mul_tenth w = (Ok tt, w') -> run_ready tflite_ok w'.
Proof.
  intros H.
  assert (Hr : run_ready tflite_ok w) by (eapply create_tfjs_model_ready; eauto).
  pose proof (create_tfjs_model_frame_ok _ _ H) as Hfr.
  apply create_tfjs_model_ok in H as (Hf & Hd & _).
  eapply run_ready_after; eauto.
Qed.

End Frame.

(* ================================================================== *)
(** ** The draws of procedure B *)

Lemma map_seq_shift (h : nat -> Z) n m :
  map h (seq n m) = map (fun i => h (n + i)%nat) (seq 0 m).
Proof.
  revert n h. induction m as [|m IH]; intros n h; [done|].
  cbn [seq map]. rewrite IH, (IH 1%nat (fun i => h (n + i)%nat)).
  rewrite Nat.add_0_r. f_equal. apply map_ext. intros i. f_equal. lia.
Qed.

(** The number of draws [draw_tensors] takes for the shapes [shs]. *)
Definition draw_count (shs : list (list Z)) : nat :=
  fold_right (fun s n => (Z.to_nat (shape_size s) + n)%nat) O shs.

Lemma draw_tensors_flat f g d pos shs :
  draw_tensors f g d pos shs =
  map g (map f (map (fun i => d (pos + i)%nat) (seq 0 (draw_count shs)))).
Proof.
  revert pos. induction shs as [|s shs IH]; intros pos; [done|].
  cbn [draw_tensors draw_count fold_right]. rewrite IH.
  rewrite seq_app, !map_app. f_equal.
  rewrite (map_seq_shift (fun i => d (pos + i)%nat) (0 + Z.to_nat (shape_size s))%nat).
  do 2 f_equal. apply map_ext. intros i. f_equal. lia.
Qed.

Lemma draw_count_weight_shapes : draw_count weight_shapes = Z.to_nat 60276.
Proof.
  change (draw_count weight_shapes)
    with (Z.to_nat 288 + (Z.to_nat 32 + (Z.to_nat 59904 + (Z.to_nat 52 + 0))))%nat.
  rewrite Nat.add_0_r, <- !Z2Nat.inj_add by lia. reflexivity.
Qed.

Section MoreRuns.

Variable tflite_ok : list Z -> bool.
Variable to_f32 : Z -> Z.
Variable f32_mul_tenth : Z -> Z.

Lemma create_tfjs_model_rng_pos w w' :
  create_tfjs_model tflite_ok to_f32 f32_mul_tenth w = (Ok tt, w') ->
  rng_pos w' = (rng_pos w + draw_count weight_shapes)%nat.
Proof.
  unfold create_tfjs_model, mbind, M_bind. intros H.
  apply bindM_ok in H as ([] & w1 & H1 & H).
  apply os_makedirs_ok in H1 as (_ & _ & Hp1 & _).
  apply bindM_ok in H as ([] & w2 & H2 & H). apply interpreter_load_ok in H2 as [_ ->].
  apply bindM_ok in H as ([] & w3 & H3 & H).
  apply open_write_ok in H3 as (_ & ->).
  do 4 (rewrite bindM_randn in H; cbv beta zeta in H).
  apply open_write_ok in H as (_ & ->).
  cbn [rng_pos emit with_files with_rng_pos]. rewrite Hp1.
  cbn [draw_count fold_right weight_shapes]. lia.
Qed.

End MoreRuns.

(* ================================================================== *)
(** ** Reading the shard back *)

(** What a reader of the shard recovers from its bytes: each group of four
    bytes read as a little-endian 32-bit pattern, as a [Float32Array] view
    of the buffer, or [np.fromfile] with dtype float32 on a little-endian
    host, reads it. *)
Fixpoint from_le32 (b : list Z) : list Z :=
  match b with
  | b0 :: b1 :: b2 :: b3 :: r => (b0 + b1 * 256 + b2 * 65536 + b3 * 16777216) :: from_le32 r
  | _ => []
  end.

Lemma land_255 x : Z.land x 255 = x mod 256.
Proof. change 255 with (Z.ones 8). rewrite Z.land_ones by lia. reflexivity. Qed.

Lemma le32_bytes x : Forall (fun b => 0 <= b < 256) (le32 x).
Proof.
  unfold le32. rewrite !land_255.
  repeat constructor; apply Z.mod_pos_bound; lia.
Qed.

Lemma le32_value x :
  0 <= x < 2 ^ 32 ->
  Z.land x 255 + Z.land (Z.shiftr x 8) 255 * 256 + Z.land (Z.shiftr x 16) 255 * 65536 +
  Z.land (Z.shiftr x 24) 255 * 16777216 = x.
Proof.
  intros Hx. rewrite !land_255, !Z.shiftr_div_pow2 by lia.
  change (2 ^ 8) with 256. change (2 ^ 16) with (256 * 256). change (2 ^ 24) with (256 * 256 * 256).
  rewrite <- !Z.div_div by lia.
  set (a := x / 256). set (b := a / 256). set (c := b / 256).
  assert (Hc : 0 <= c < 256).
  { subst c b a. rewrite !Z.div_div by lia. split; [apply Z.div_pos; lia|].
    apply Z.div_lt_upper_bound; lia. }
  rewrite (Z.mod_small c) by exact Hc.
  pose proof (Z.div_mod x 256 ltac:(lia)) as E1.
  pose proof (Z.div_mod a 256 ltac:(lia)) as E2.
  pose proof (Z.div_mod b 256 ltac:(lia)) as E3.
  fold a in E1. fold b in E2. fold c in E3. lia.
Qed.

Lemma os_makedirs_present ds w :
  Forall (fun d => d ∈ dirs w) ds -> os_makedirs ds w = (Ok tt, w).
Proof.
  induction 1 as [|d ds Hd _ IH]; [reflexivity|].
  cbn. unfold bindM, makedir. rewrite decide_True by exact Hd. exact IH.
Qed.

(* ================================================================== *)
(** ** Reading model.json back *)

Module JsonFacts.
Import Json.

Local Abbreviation L := list_ascii_of_string.

(** The values the encoder and the reader agree on: integers of at most
    64 digits (the fuel of [digits]) and strings of printable ASCII
    characters and new lines (the characters [escape] handles). *)
Definition json_char (c : ascii) : bool :=
  let n := Ascii.nat_of_ascii c in
  (n =? 10)%nat || ((32 <=? n)%nat && (n <=? 126)%nat).

Definition json_text (s : string) : bool := forallb json_char (L s).

Fixpoint json_ok (j : json) : bool :=
  match j with
  | JNum z => (- 10 ^ 64 <? z) && (z <? 10 ^ 64)
  | JStr s => json_text s
  | JArr l => forallb json_ok l
  | JObj kvs => forallb (fun '(k, v) => json_text k && json_ok v) kvs
  end.

(** The loops [items] and [members] of [dump], named. *)
Fixpoint dump_items (lvl : nat) (l : list json) : string :=
  match l with
  | [] => EmptyString
  | y :: ys => "," ++ newline_indent lvl ++ dump lvl y ++ dump_items lvl ys
  end.

Fixpoint dump_members (lvl : nat) (l : list (string * json)) : string :=
  match l with
  | [] => EmptyString
  | (k, v) :: r => "," ++ newline_indent lvl ++ quote k ++ ": " ++ dump lvl v ++ dump_members lvl r
  end.

Definition json_ind' (P : json -> Prop)
  (HN : forall z, P (JNum z)) (HS : forall s, P (JStr s))
  (HA : forall l, Forall P l -> P (JArr l))
  (HO : forall kvs, Forall (fun kv => P (snd kv)) kvs -> P (JObj kvs)) : forall j, P j :=
  fix go j :=
    match j with
    | JNum z => HN z
    | JStr s => HS s
    | JArr l =>
        HA l ((fix go_l (l : list json) : Forall P l :=
                 match l with
                 | [] => @List.Forall_nil _ P
                 | x :: r => @List.Forall_cons _ P x r (go x) (go_l r)
                 end) l)
    | JObj kvs =>
        HO kvs ((fix go_o (kvs : list (string * json)) : Forall (fun kv => P (snd kv)) kvs :=
                   match kvs with
                   | [] => @List.Forall_nil _ _
                   | (k, v) :: r => @List.Forall_cons _ (fun kv => P (snd kv)) (k, v) r (go v) (go_o r)
                   end) kvs)
    end.

Lemma las_app (s1 s2 : string) : L (s1 ++ s2)%string = L s1 ++ L s2.
Proof. induction s1 as [|c s1 IH]; [reflexivity|]. exact (f_equal (cons c) IH). Qed.

Lemma dump_arr_cons lvl x xs :
  dump lvl (JArr (x :: xs)) =
  ("[" ++ newline_indent (S lvl) ++ dump (S lvl) x ++ dump_items (S lvl) xs ++
   newline_indent lvl ++ "]")%string.
Proof.
  cbn [dump]. f_equal. f_equal. f_equal. f_equal.
  induction xs as [|y ys IH]; [reflexivity|]. cbn. congruence.
Qed.

Lemma dump_obj_cons lvl k v kvs :
  dump lvl (JObj ((k, v) :: kvs)) =
  ("{" ++ newline_indent (S lvl) ++ quote k ++ ": " ++ dump (S lvl) v ++
   dump_members (S lvl) kvs ++ newline_indent lvl ++ "}")%string.
Proof.
  cbn [dump]. f_equal. f_equal. f_equal. f_equal. f_equal. f_equal.
  induction kvs as [|[k' v'] r IH]; [reflexivity|]. cbn. congruence.
Qed.

(** White space *)

Definition ws_list (ws : list ascii) : Prop := Forall (fun c => is_ws c = true) ws.

Lemma skip_ws_app ws t : ws_list ws -> skip_ws (ws ++ t) = skip_ws t.
Proof. induction 1 as [|c ws Hc _ IH]; cbn; [reflexivity|]. rewrite Hc. exact IH. Qed.

Lemma skip_ws_stop c t : is_ws c = false -> skip_ws (c :: t) = c :: t.
Proof. cbn. intros ->. reflexivity. Qed.

Lemma las_spaces k : L (String.concat "" (repeat " "%string k)) = repeat " "%char k.
Proof.
  induction k as [|k IH]; [reflexivity|]. destruct k as [|k]; [reflexivity|].
  change (L (" " ++ "" ++ String.concat "" (repeat " "%string (S k)))%string =
          " "%char :: repeat " "%char (S k)).
  rewrite !las_app, IH. reflexivity.
Qed.

Lemma las_newline_indent n : L (newline_indent n) = nl :: repeat " "%char (2 * n).
Proof. unfold newline_indent. cbn [list_ascii_of_string]. by rewrite las_spaces. Qed.

Lemma newline_indent_ws n : ws_list (L (newline_indent n)).
Proof.
  rewrite las_newline_indent. constructor; [reflexivity|].
  induction (2 * n)%nat as [|k IH]; constructor; [reflexivity | exact IH].
Qed.

Lemma read_value_ws f ws s : ws_list ws -> read_value (S f) (ws ++ s) = read_value (S f) s.
Proof. intros H. cbn [read_value]. by rewrite skip_ws_app. Qed.

Lemma expect_ws c ws t : ws_list ws -> expect c (ws ++ t) = expect c t.
Proof. intros H. unfold expect. by rewrite skip_ws_app. Qed.

Lemma expect_hit c t : is_ws c = false -> expect c (c :: t) = Some t.
Proof. intros H. unfold expect. rewrite skip_ws_stop by exact H. by rewrite Ascii.eqb_refl. Qed.

Lemma expect_miss c c' t : is_ws c' = false -> c <> c' -> expect c (c' :: t) = None.
Proof.
  intros H Hne. unfold expect. rewrite skip_ws_stop by exact H.
  apply Ascii.eqb_neq in Hne. by rewrite Hne.
Qed.

(** Numbers *)

Definition digit_step (acc : Z) (c : ascii) : Z :=
  acc * 10 + Z.of_nat (Ascii.nat_of_ascii c - 48).

Definition no_digit (s : list ascii) : Prop :=
  match s with c :: _ => is_digit c = false | [] => True end.

Lemma ws_not_digit c : is_ws c = true -> is_digit c = false.
Proof.
  unfold is_ws, is_digit. cbv zeta. intros H.
  repeat (apply orb_true_iff in H as [H|H]); apply Nat.eqb_eq in H; rewrite H; reflexivity.
Qed.

Lemma no_digit_ws ws c r : ws_list ws -> is_digit c = false -> no_digit (ws ++ c :: r).
Proof.
  intros Hws Hc. destruct Hws as [|w ws Hw _]; [exact Hc|]. cbn. by apply ws_not_digit.
Qed.

Lemma read_digits_app ds rest a :
  Forall (fun c => is_digit c = true) ds ->
  read_digits (ds ++ rest) a = read_digits rest (fold_left digit_step ds a).
Proof.
  intros H. revert a. induction H as [|c ds Hc _ IH]; intros a; [reflexivity|].
  cbn. rewrite Hc. apply IH.
Qed.

Lemma read_digits_stop rest a : no_digit rest -> read_digits rest a = (a, rest).
Proof. destruct rest as [|c r]; cbn; [reflexivity|]. intros ->. reflexivity. Qed.

Lemma read_nat_digits ds rest :
  ds <> [] -> Forall (fun c => is_digit c = true) ds -> no_digit rest ->
  read_nat (ds ++ rest) = Some (fold_left digit_step ds 0, rest).
Proof.
  intros Hne Hd Hr. destruct ds as [|d0 ds0]; [congruence|].
  pose proof (Forall_inv Hd) as Hd0.
  unfold read_nat. cbn [app]. rewrite Hd0.
  change (d0 :: ds0 ++ rest) with ((d0 :: ds0) ++ rest).
  rewrite read_digits_app by exact Hd. by rewrite read_digits_stop.
Qed.

Lemma digit_char k :
  (k < 10)%nat ->
  is_digit (Ascii.ascii_of_nat (48 + k)) = true /\
  Ascii.nat_of_ascii (Ascii.ascii_of_nat (48 + k)) = (48 + k)%nat.
Proof.
  intros Hk. unfold is_digit. cbv zeta. rewrite Ascii.nat_ascii_embedding by lia.
  split; [|reflexivity]. apply andb_true_intro; split; apply Nat.leb_le; lia.
Qed.

Lemma digits_S f n acc :
  digits (S f) n acc =
  if n <? 10 then String (Ascii.ascii_of_nat (48 + Z.to_nat (n mod 10))) acc
  else digits f (n / 10) (String (Ascii.ascii_of_nat (48 + Z.to_nat (n mod 10))) acc).
Proof. reflexivity. Qed.

Lemma digits_spec f n acc :
  0 <= n < 10 ^ Z.of_nat (S f) ->
  exists ds, L (digits (S f) n acc) = ds ++ L acc /\ ds <> [] /\
    Forall (fun c => is_digit c = true) ds /\ fold_left digit_step ds 0 = n.
Proof.
  revert n acc. induction f as [|f IH]; intros n acc Hn.
  all: set (k := Z.to_nat (n mod 10)).
  all: assert (Hk : (k < 10)%nat) by (subst k; pose proof (Z.mod_pos_bound n 10); lia).
  all: assert (Hkz : Z.of_nat k = n mod 10) by (subst k; rewrite Z2Nat.id; [done|]; apply Z.mod_pos_bound; lia).
  all: destruct (digit_char k Hk) as [Hdig Hcode].
  all: assert (Hstep : forall a, digit_step a (Ascii.ascii_of_nat (48 + k)) = a * 10 + n mod 10)
         by (intros a; unfold digit_step; rewrite Hcode, <- Hkz; f_equal; f_equal; lia).
  all: rewrite digits_S; fold k; destruct (n <? 10) eqn:Hlt.
  - exists [Ascii.ascii_of_nat (48 + k)]. split_and!; [reflexivity | done | by constructor |].
    cbn. rewrite Hstep. apply Z.ltb_lt in Hlt. rewrite Z.mod_small by lia. lia.
  - apply Z.ltb_ge in Hlt. change (Z.of_nat 1) with 1 in Hn. lia.
  - exists [Ascii.ascii_of_nat (48 + k)]. split_and!; [reflexivity | done | by constructor |].
    cbn. rewrite Hstep. apply Z.ltb_lt in Hlt. rewrite Z.mod_small by lia. lia.
  - apply Z.ltb_ge in Hlt.
    destruct (IH (n / 10) (String (Ascii.ascii_of_nat (48 + k)) acc)) as (ds & Hds & Hne & Hd & Hv).
    { rewrite Nat2Z.inj_succ, Z.pow_succ_r in Hn by lia. split; [apply Z.div_pos; lia|].
      apply Z.div_lt_upper_bound; lia. }
    exists (ds ++ [Ascii.ascii_of_nat (48 + k)]). split_and!.
    + rewrite Hds. cbn [list_ascii_of_string]. by rewrite <- app_assoc.
    + by destruct ds.
    + apply Forall_app. split; [exact Hd | by constructor].
    + rewrite fold_left_app, Hv. cbn [fold_left]. rewrite Hstep.
      pose proof (Z.div_mod n 10). lia.
Qed.

Definition int_ok (z : Z) : Prop := - 10 ^ 64 < z < 10 ^ 64.

Lemma show_int_spec z :
  int_ok z ->
  exists sg ds, L (show_int z) = sg ++ ds /\ (sg = [] \/ sg = ["-"%char]) /\ ds <> [] /\
    Forall (fun c => is_digit c = true) ds /\
    (forall rest, no_digit rest -> read_int (L (show_int z) ++ rest) = Some (z, rest)).
Proof.
  intros Hz. unfold show_int. destruct (z <? 0) eqn:Hneg.
  - apply Z.ltb_lt in Hneg.
    destruct (digits_spec 63 (- z) EmptyString) as (ds & Hds & Hne & Hd & Hv).
    { change (Z.of_nat 64) with 64. unfold int_ok in Hz. lia. }
    rewrite app_nil_r in Hds.
    exists ["-"%char], ds. cbn [list_ascii_of_string]. rewrite Hds. split_and!; [done | by right | done | done |].
    intros rest Hr. cbn [app read_int]. cbn [Ascii.eqb Bool.eqb].
    rewrite read_nat_digits by done. rewrite Hv. f_equal. f_equal. lia.
  - apply Z.ltb_ge in Hneg.
    destruct (digits_spec 63 z EmptyString) as (ds & Hds & Hne & Hd & Hv).
    { change (Z.of_nat 64) with 64. unfold int_ok in Hz. lia. }
    rewrite app_nil_r in Hds.
    exists [], ds. rewrite Hds. split_and!; [done | by left | done | done |].
    intros rest Hr. destruct ds as [|d0 ds0]; [congruence|].
    pose proof (Forall_inv Hd) as Hd0. cbn [app read_int].
    destruct (Ascii.eqb_spec d0 "-") as [->|_]; [discriminate|].
    change (d0 :: ds0 ++ rest) with ((d0 :: ds0) ++ rest).
    rewrite read_nat_digits by done. by rewrite Hv.
Qed.

(** Strings *)

Lemma eqb_bs_dq : Ascii.eqb bs dq = false. Proof. reflexivity. Qed.
Lemma eqb_n_dq : Ascii.eqb "n" dq = false. Proof. reflexivity. Qed.
Lemma eqb_n_bs : Ascii.eqb "n" bs = false. Proof. reflexivity. Qed.
Lemma eqb_dq_lbrack : Ascii.eqb dq "[" = false. Proof. reflexivity. Qed.
Lemma eqb_dq_lbrace : Ascii.eqb dq "{" = false. Proof. reflexivity. Qed.

Ltac jchars :=
  rewrite ?eqb_bs_dq, ?eqb_n_dq, ?eqb_n_bs, ?eqb_dq_lbrack, ?eqb_dq_lbrace, ?Ascii.eqb_refl.

Lemma json_char_code c :
  json_char c = true -> c <> nl -> (32 <= Ascii.nat_of_ascii c <= 126)%nat.
Proof.
  unfold json_char. cbv zeta. intros H Hnl. apply orb_true_iff in H as [H|H].
  - apply Nat.eqb_eq in H. exfalso. apply Hnl.
    rewrite <- (Ascii.ascii_nat_embedding c), H. reflexivity.
  - apply andb_prop in H as [H1 H2]. apply Nat.leb_le in H1, H2. lia.
Qed.

Lemma read_chars_escape s acc rest :
  json_text s = true ->
  read_chars (L (escape s) ++ dq :: rest) acc =
  Some (string_of_list_ascii (rev acc ++ L s), rest).
Proof.
  revert acc. induction s as [|c s IH]; intros acc Hs.
  - cbn. by rewrite app_nil_r.
  - unfold json_text in Hs. cbn [list_ascii_of_string forallb] in Hs.
    apply andb_prop in Hs as [Hc Hs].
    assert (Hrest : forall e, string_of_list_ascii (rev (e :: acc) ++ L s) =
                              string_of_list_ascii (rev acc ++ e :: L s))
      by (intros e; change (rev (e :: acc)) with (rev acc ++ [e]); by rewrite <- app_assoc).
    cbn [escape list_ascii_of_string].
    destruct (Ascii.eqb c dq) eqn:Edq; [apply Ascii.eqb_eq in Edq as ->|].
    { cbn [list_ascii_of_string app read_chars]. jchars. cbn. rewrite IH by exact Hs. by rewrite Hrest. }
    destruct (Ascii.eqb c bs) eqn:Ebs; [apply Ascii.eqb_eq in Ebs as ->|].
    { cbn [list_ascii_of_string app read_chars]. jchars. cbn. rewrite IH by exact Hs. by rewrite Hrest. }
    destruct (Ascii.eqb c nl) eqn:Enl; [apply Ascii.eqb_eq in Enl as ->|].
    { cbn [list_ascii_of_string app read_chars]. jchars. cbn. rewrite IH by exact Hs. by rewrite Hrest. }
    apply Ascii.eqb_neq in Enl. pose proof (json_char_code c Hc Enl) as Hcode.
    cbn [list_ascii_of_string app read_chars]. rewrite Edq, Ebs.
    replace (Ascii.nat_of_ascii c <? 32)%nat with false by (symmetry; apply Nat.ltb_ge; lia).
    rewrite IH by exact Hs. by rewrite Hrest.
Qed.

Lemma las_quote s : L (quote s) = dq :: L (escape s) ++ [dq].
Proof. unfold quote. cbn [list_ascii_of_string]. by rewrite las_app. Qed.

Lemma read_chars_quote s rest :
  json_text s = true -> read_chars (L (escape s) ++ dq :: rest) [] = Some (s, rest).
Proof.
  intros Hs. rewrite read_chars_escape by exact Hs. cbn [rev app].
  by rewrite string_of_list_ascii_of_string.
Qed.

(** The first character of a dump *)

Lemma dump_head lvl j :
  json_ok j = true ->
  exists c t, L (dump lvl j) = c :: t /\ is_ws c = false /\ c <> "]"%char /\ c <> "}"%char.
Proof.
  intros Hj. destruct j as [z|s|[|x xs]|[|[k v] kvs]].
  - cbn in Hj. apply andb_prop in Hj as [H1 H2]. apply Z.ltb_lt in H1, H2.
    destruct (show_int_spec z ltac:(unfold int_ok; lia)) as (sg & ds & Hs & Hsg & Hne & Hd & _).
    cbn [dump]. rewrite Hs. destruct Hsg as [->| ->].
    + destruct ds as [|d0 ds0]; [congruence|]. pose proof (Forall_inv Hd) as Hd0.
      exists d0, ds0. split_and!; [done | | intros ->; discriminate | intros ->; discriminate].
      destruct (is_ws d0) eqn:Hw; [|done]. apply ws_not_digit in Hw. congruence.
    + by exists "-"%char, ds.
  - exists dq, (L (escape s) ++ [dq]). cbn [dump]. by rewrite las_quote.
  - by exists "["%char, ["]"%char].
  - rewrite dump_arr_cons, las_app. by eexists "["%char, _.
  - by exists "{"%char, ["}"%char].
  - rewrite dump_obj_cons, las_app. by eexists "{"%char, _.
Qed.

Lemma expect_dump_miss c lvl j t :
  json_ok j = true -> c = "]"%char \/ c = "}"%char -> expect c (L (dump lvl j) ++ t) = None.
Proof.
  intros Hj Hc. destruct (dump_head lvl j Hj) as (c' & t' & Hct & Hw & H1 & H2).
  rewrite Hct. cbn [app]. apply expect_miss; [exact Hw|]. intros <-. destruct Hc; congruence.
Qed.

Lemma expect_quote_miss k t : expect "}" (L (quote k) ++ t) = None.
Proof. rewrite las_quote. cbn [app]. apply expect_miss; [reflexivity | discriminate]. Qed.

(** The reader gives back what the encoder wrote *)

Definition value_ok (fuel : nat) : Prop :=
  forall j lvl ws rest,
    json_ok j = true -> ws_list ws -> no_digit rest ->
    (length (L (dump lvl j)) < fuel)%nat ->
    read_value fuel (ws ++ L (dump lvl j) ++ rest) = Some (j, rest).

Lemma read_elems_dump g0 (HP : forall f, (f < g0)%nat -> value_ok f) :
  forall xs x acc lvl cws rest g,
    (g <= g0)%nat -> json_ok x = true -> forallb json_ok xs = true -> ws_list cws ->
    (length (L (newline_indent lvl)) + length (L (dump lvl x)) +
     length (L (dump_items lvl xs)) < g)%nat ->
    read_elems g acc (L (newline_indent lvl) ++ L (dump lvl x) ++ L (dump_items lvl xs) ++
                      cws ++ "]"%char :: rest) =
    Some (JArr (rev acc ++ x :: xs), rest).
Proof.
  induction xs as [|y ys IH]; intros x acc lvl cws rest g Hg Hx Hxs Hcws Hlen.
  all: destruct g as [|g]; [lia|].
  all: cbn [read_elems].
  all: rewrite las_newline_indent in Hlen; cbn [length] in Hlen.
  - cbn [dump_items list_ascii_of_string app] in *.
    rewrite (HP g ltac:(lia) x lvl (L (newline_indent lvl)) (cws ++ "]"%char :: rest) Hx
               (newline_indent_ws lvl) (no_digit_ws cws "]"%char rest Hcws eq_refl) ltac:(lia)).
    rewrite expect_ws, expect_miss by (done || discriminate).
    rewrite expect_ws, expect_hit by done. reflexivity.
  - cbn [forallb] in Hxs. apply andb_prop in Hxs as [Hy Hys].
    cbn [dump_items]. rewrite !las_app. cbn [list_ascii_of_string app].
    cbn [dump_items] in Hlen. rewrite !las_app, !length_app, las_newline_indent in Hlen.
    cbn [list_ascii_of_string length] in Hlen.
    rewrite <- !app_assoc.
    rewrite (HP g ltac:(lia) x lvl (L (newline_indent lvl)))
      by first [exact Hx | apply newline_indent_ws | reflexivity | lia].
    rewrite expect_hit by done.
    rewrite (IH y (x :: acc) lvl cws rest g)
      by first [done | lia | rewrite las_newline_indent; cbn [length]; lia].
    cbn [rev]. by rewrite <- app_assoc.
Qed.

Lemma read_members_dump g0 (HP : forall f, (f < g0)%nat -> value_ok f) :
  forall kvs k v acc lvl cws rest g,
    (g <= g0)%nat -> json_text k = true -> json_ok v = true ->
    forallb (fun '(k, v) => json_text k && json_ok v) kvs = true -> ws_list cws ->
    (length (L (newline_indent lvl)) + length (L (quote k)) + 2 + length (L (dump lvl v)) +
     length (L (dump_members lvl kvs)) < g)%nat ->
    read_members g acc (L (newline_indent lvl) ++ L (quote k) ++ ":"%char :: " "%char ::
                        L (dump lvl v) ++ L (dump_members lvl kvs) ++ cws ++ "}"%char :: rest) =
    Some (JObj (rev acc ++ (k, v) :: kvs), rest).
Proof.
  induction kvs as [|[k' v'] kvs IH]; intros k v acc lvl cws rest g Hg Hk Hv Hkvs Hcws Hlen.
  all: destruct g as [|g]; [lia|].
  all: cbn [read_members].
  all: unfold read_string; rewrite skip_ws_app by apply newline_indent_ws.
  all: rewrite las_quote; cbn [app]; rewrite <- ?app_assoc; cbn [app]; rewrite skip_ws_stop by reflexivity.
  all: rewrite Ascii.eqb_refl, read_chars_quote by exact Hk.
  all: rewrite expect_hit by reflexivity.
  all: rewrite las_newline_indent in Hlen; cbn [length] in Hlen.
  - cbn [dump_members list_ascii_of_string app] in *.
    pose proof (HP g ltac:(lia) v lvl [" "%char] (cws ++ "}"%char :: rest) Hv
               ltac:(by repeat constructor) (no_digit_ws cws "}"%char rest Hcws eq_refl) ltac:(lia))
      as Hread.
    cbn [app] in Hread. rewrite Hread.
    rewrite expect_ws, expect_miss by (done || discriminate).
    rewrite expect_ws, expect_hit by done. reflexivity.
  - cbn [forallb] in Hkvs. apply andb_prop in Hkvs as [Hkv Hkvs]. apply andb_prop in Hkv as [Hk' Hv'].
    cbn [dump_members]. rewrite !las_app. cbn [list_ascii_of_string app].
    cbn [dump_members] in Hlen. rewrite !las_app, !length_app, las_newline_indent in Hlen.
    cbn [list_ascii_of_string length] in Hlen.
    do 3 (rewrite <- ?app_assoc; cbn [app]).
    match goal with
    | |- context [read_value g (" "%char :: L (dump lvl v) ++ ?t)] =>
        pose proof (HP g ltac:(lia) v lvl [" "%char] t) as Hread
    end.
    cbn [app] in Hread. rewrite Hread by first [exact Hv | by repeat constructor | reflexivity | lia].
    rewrite expect_hit by done.
    rewrite (IH k' v' ((k, v) :: acc) lvl cws rest g)
      by first [done | lia | rewrite las_newline_indent; cbn [length]; lia].
    cbn [rev]. by rewrite <- app_assoc.
Qed.

Lemma value_ok_all fuel : value_ok fuel.
Proof.
  induction fuel as [fuel IH] using (well_founded_induction lt_wf).
  intros j lvl ws rest Hj Hws Hr Hlen.
  destruct fuel as [|f]; [lia|]. rewrite read_value_ws by exact Hws.
  destruct j as [z|s|[|x xs]|[|[k v] kvs]].
  - cbn in Hj. apply andb_prop in Hj as [H1 H2]. apply Z.ltb_lt in H1, H2.
    destruct (show_int_spec z ltac:(unfold int_ok; lia)) as (sg & ds & Hs & Hsg & Hne & Hd & Hread).
    specialize (Hread rest Hr). cbn [dump]. revert Hread.
    destruct (dump_head lvl (JNum z) ltac:(cbn; rewrite andb_true_iff, !Z.ltb_lt; lia))
      as (c & t & Hct & Hw & _ & _).
    cbn [dump] in Hct. rewrite Hct. intros Hread. cbn [app read_value].
    rewrite skip_ws_stop by exact Hw.
    assert (Hc : c = "-"%char \/ is_digit c = true).
    { rewrite Hs in Hct. destruct Hsg as [->| ->].
      - destruct ds; [congruence|]. cbn in Hct. injection Hct as -> _. right. exact (Forall_inv Hd).
      - injection Hct as -> _. by left. }
    assert (Hnot : forall d, is_digit d = false -> d <> "-"%char -> Ascii.eqb c d = false).
    { intros d Hdd Hdm. apply Ascii.eqb_neq. intros ->. destruct Hc; congruence. }
    rewrite !Hnot by (reflexivity || discriminate). cbn [app] in Hread. rewrite Hread. reflexivity.
  - cbn [dump]. rewrite las_quote. cbn [app]. rewrite <- app_assoc. cbn [app read_value].
    rewrite skip_ws_stop by reflexivity. jchars.
    cbn [json_ok] in Hj. rewrite read_chars_quote by exact Hj. reflexivity.
  - cbn [dump list_ascii_of_string app read_value]. rewrite skip_ws_stop by reflexivity.
    rewrite ?Ascii.eqb_refl, expect_hit by reflexivity. reflexivity.
  - cbn [json_ok forallb] in Hj. apply andb_prop in Hj as [Hx Hxs].
    rewrite dump_arr_cons, !las_app in Hlen |- *. rewrite !length_app in Hlen.
    cbn [list_ascii_of_string length] in Hlen. rewrite <- !app_assoc.
    cbn [list_ascii_of_string app read_value].
    rewrite skip_ws_stop, Ascii.eqb_refl by reflexivity.
    rewrite expect_ws by apply newline_indent_ws. rewrite expect_dump_miss by (done || by left).
    rewrite (read_elems_dump (S f) IH xs x [] (S lvl) (L (newline_indent lvl)) rest f)
      by (apply newline_indent_ws || lia || done). reflexivity.
  - cbn [dump list_ascii_of_string app read_value]. rewrite skip_ws_stop by reflexivity.
    cbn [Ascii.eqb Bool.eqb]. rewrite ?Ascii.eqb_refl, expect_hit by reflexivity. reflexivity.
  - cbn [json_ok forallb] in Hj. apply andb_prop in Hj as [Hkv Hkvs]. apply andb_prop in Hkv as [Hk Hv].
    rewrite dump_obj_cons, !las_app in Hlen |- *. rewrite !length_app in Hlen.
    cbn [list_ascii_of_string length] in Hlen. rewrite <- !app_assoc.
    cbn [list_ascii_of_string app read_value].
    rewrite skip_ws_stop by reflexivity. cbn [Ascii.eqb Bool.eqb]. rewrite ?Ascii.eqb_refl.
    rewrite expect_ws by apply newline_indent_ws. rewrite expect_quote_miss.
    rewrite (read_members_dump (S f) IH kvs k v [] (S lvl) (L (newline_indent lvl)) rest f)
      by (apply newline_indent_ws || cbn [length]; lia || done). reflexivity.
Qed.

(** The dump is ASCII *)

Ltac forall_cons :=
  repeat match goal with
         | |- Forall _ (_ :: _) => apply List.Forall_cons
         | |- Forall _ [] => apply List.Forall_nil
         end.

Definition ascii7 (c : ascii) : Prop := (Ascii.nat_of_ascii c < 128)%nat.

Lemma digit_ascii7 c : is_digit c = true -> ascii7 c.
Proof. unfold is_digit, ascii7. cbv zeta. intros H. apply andb_prop in H as [_ H]. apply Nat.leb_le in H. lia. Qed.

Lemma escape_ascii7 s : json_text s = true -> Forall ascii7 (L (escape s)).
Proof.
  induction s as [|c s IH]; intros Hs; [constructor|].
  unfold json_text in Hs. cbn [list_ascii_of_string forallb] in Hs. apply andb_prop in Hs as [Hc Hs].
  cbn [escape]. destruct (Ascii.eqb c dq), (Ascii.eqb c bs); [| | |destruct (Ascii.eqb c nl) eqn:Enl].
  all: cbn [list_ascii_of_string]; forall_cons; try (apply IH; exact Hs); try (cbv; lia).
  apply Ascii.eqb_neq in Enl. pose proof (json_char_code c Hc Enl). unfold ascii7. lia.
Qed.

Lemma newline_indent_ascii7 n : Forall ascii7 (L (newline_indent n)).
Proof.
  rewrite las_newline_indent. forall_cons; [cbv; lia|].
  induction (2 * n)%nat as [|k IH]; constructor; [cbv; lia | exact IH].
Qed.

Lemma quote_ascii7 s : json_text s = true -> Forall ascii7 (L (quote s)).
Proof.
  intros Hs. rewrite las_quote. forall_cons; [cbv; lia|].
  apply Forall_app. split; [by apply escape_ascii7 | constructor; [cbv; lia | constructor]].
Qed.

Ltac forall_split :=
  repeat match goal with
         | |- Forall _ (_ :: _) => apply List.Forall_cons
         | |- Forall _ (_ ++ _) => apply Forall_app; split
         | |- Forall _ [] => apply List.Forall_nil
         end.

Lemma dump_ascii7 j : forall lvl, json_ok j = true -> Forall ascii7 (L (dump lvl j)).
Proof.
  induction j as [z|s|l IH|kvs IH] using json_ind'; intros lvl Hj.
  - cbn in Hj. apply andb_prop in Hj as [H1 H2]. apply Z.ltb_lt in H1, H2.
    destruct (show_int_spec z ltac:(unfold int_ok; lia)) as (sg & ds & Hs & Hsg & _ & Hd & _).
    cbn [dump]. rewrite Hs. apply Forall_app. split.
    + destruct Hsg as [-> | ->]; forall_cons. cbv; lia.
    + eapply Forall_impl; [exact Hd | exact digit_ascii7].
  - cbn [dump]. by apply quote_ascii7.
  - destruct l as [|x xs]; [cbn [dump list_ascii_of_string]; forall_cons; cbv; lia|].
    cbn [json_ok forallb] in Hj. apply andb_prop in Hj as [Hx Hxs].
    apply Forall_cons in IH as [IHx IHxs].
    rewrite dump_arr_cons, !las_app. cbn [list_ascii_of_string]. forall_split.
    all: match goal with
         | |- ascii7 _ => cbv; lia
         | |- Forall _ (L (newline_indent _)) => apply newline_indent_ascii7
         | |- Forall _ (L (dump _ _)) => by apply IHx
         | |- Forall _ (L (dump_items _ _)) => idtac
         end.
    clear Hx IHx. induction xs as [|y ys IHys]; [constructor|].
    cbn [forallb] in Hxs. apply andb_prop in Hxs as [Hy Hys].
    apply Forall_cons in IHxs as [IHy IHys'].
    cbn [dump_items]. rewrite !las_app. cbn [list_ascii_of_string]. forall_split.
    all: match goal with
         | |- ascii7 _ => cbv; lia
         | |- Forall _ (L (newline_indent _)) => apply newline_indent_ascii7
         | |- Forall _ (L (dump _ _)) => by apply IHy
         | |- Forall _ (L (dump_items _ _)) => exact (IHys IHys' Hys)
         end.
  - destruct kvs as [|[k v] kvs]; [cbn [dump list_ascii_of_string]; forall_cons; cbv; lia|].
    cbn [json_ok forallb] in Hj. apply andb_prop in Hj as [Hkv Hkvs]. apply andb_prop in Hkv as [Hk Hv].
    apply Forall_cons in IH as [IHv IHkvs]. cbn [snd] in IHv.
    rewrite dump_obj_cons, !las_app. cbn [list_ascii_of_string]. forall_split.
    all: match goal with
         | |- ascii7 _ => cbv; lia
         | |- Forall _ (L (newline_indent _)) => apply newline_indent_ascii7
         | |- Forall _ (L (quote _)) => by apply quote_ascii7
         | |- Forall _ (L (dump _ _)) => by apply IHv
         | |- Forall _ (L (dump_members _ _)) => idtac
         end.
    clear Hv IHv. induction kvs as [|[k' v'] r IHr]; [constructor|].
    cbn [forallb] in Hkvs. apply andb_prop in Hkvs as [Hkv Hr]. apply andb_prop in Hkv as [Hk' Hv'].
    apply Forall_cons in IHkvs as [IHv' IHrest]. cbn [snd] in IHv'.
    cbn [dump_members]. rewrite !las_app. cbn [list_ascii_of_string]. forall_split.
    all: match goal with
         | |- ascii7 _ => cbv; lia
         | |- Forall _ (L (newline_indent _)) => apply newline_indent_ascii7
         | |- Forall _ (L (quote _)) => by apply quote_ascii7
         | |- Forall _ (L (dump _ _)) => by apply IHv'
         | |- Forall _ (L (dump_members _ _)) => exact (IHr IHrest Hr)
         end.
Qed.

End JsonFacts.

(* ================================================================== *)
(** ** The listing at the end of procedure B *)





Section Listing.

(** [os.path.getsize] of a directory: the size the file system reports. *)
Variable dir_size : string -> Z.





End Listing.











(* ================================================================== *)
(** ** The claims *)

Section Claims.

Variable tflite_ok : list Z -> bool.
Variable to_f32 : Z -> Z.
Variable f32_mul_tenth : Z -> Z.

(** C1 (as amended): a successful run of procedure B writes a blob of
    [4 * (3*3*1*32 + 32 + 1152*52 + 52)] bytes, that is 4 * 60276 = 241104
    bytes. *)
Theorem create_tfjs_model_blob_bytes w w' :
  create_tfjs_model tflite_ok to_f32 f32_mul_tenth w = (Ok tt, w') ->
  blob_length w' = Some (4 * (3 * 3 * 1 * 32 + 32 + 1152 * 52 + 52)) /\
  blob_length w' = Some 241104.
Proof.
  intros H. apply create_tfjs_model_ok in H as (Hf & _ & _).
  destruct (outputs_lookup (text_bytes (Json.dump 0 model_json_B))
              (tofile (draw_tensors to_f32 f32_mul_tenth (rng w) (rng_pos w) weight_shapes))
              (files w)) as (_ & Hb & _).
  rewrite <- Hf in Hb. rewrite (blob_length_of _ _ Hb).
  rewrite length_tofile, Nat2Z.inj_mul, length_draw_tensors by apply weight_shapes_nonneg.
  split; reflexivity.
Qed.

(** C2: in a successful run of procedure B, the blob holds the float32
    encodings of [xs], and the number of elements of [xs] is the sum, over
    the weight entries of the manifest in the written model.json, of the
    product of each entry's shape. *)
Theorem create_tfjs_model_manifest_matches_blob w w' :
  create_tfjs_model tflite_ok to_f32 f32_mul_tenth w = (Ok tt, w') ->
  exists d j shs b xs,
    files w' !! model_path = Some d /\ parse_bytes d = Some j /\
    manifest_shapes j = Some shs /\
    files w' !! blob_path = Some b /\ b = tofile xs /\
    Z.of_nat (length xs) = sum_list (map shape_size shs).
Proof.
  intros H. apply create_tfjs_model_ok in H as (Hf & _ & _).
  set (xs := draw_tensors to_f32 f32_mul_tenth (rng w) (rng_pos w) weight_shapes) in Hf |- *.
  destruct (outputs_lookup (text_bytes (Json.dump 0 model_json_B)) (tofile xs) (files w))
    as (Hm & Hb & _).
  rewrite <- Hf in Hm, Hb.
  exists (text_bytes (Json.dump 0 model_json_B)), model_json_B, weight_shapes,
    (tofile xs), xs.
  split_and!; [exact Hm | apply parse_descriptor_B | exact (proj1 manifest_B) | exact Hb
              | reflexivity | apply length_draw_tensors, weight_shapes_nonneg].
Qed.

(** C3: in a successful run of procedure B, the manifest of the written
    model.json has exactly the four entries conv2d/kernel [3,3,1,32],
    conv2d/bias [32], dense/kernel [1152,52] and dense/bias [52], in this
    order, and the blob is the concatenation of tensors of these shapes
    generated in this order from consecutive draws of the generator. *)
Theorem create_tfjs_model_manifest_order w w' :
  create_tfjs_model tflite_ok to_f32 f32_mul_tenth w = (Ok tt, w') ->
  exists d j,
    files w' !! model_path = Some d /\ parse_bytes d = Some j /\
    manifest_shapes j = Some [[3; 3; 1; 32]; [32]; [1152; 52]; [52]] /\
    manifest_names j =
      Some ["conv2d/kernel"; "conv2d/bias"; "dense/kernel"; "dense/bias"]%string /\
    files w' !! blob_path =
      Some (tofile (draw_tensors to_f32 f32_mul_tenth (rng w) (rng_pos w)
                      [[3; 3; 1; 32]; [32]; [1152; 52]; [52]])).
Proof.
  intros H. apply create_tfjs_model_ok in H as (Hf & _ & _).
  destruct (outputs_lookup (text_bytes (Json.dump 0 model_json_B))
              (tofile (draw_tensors to_f32 f32_mul_tenth (rng w) (rng_pos w) weight_shapes))
              (files w)) as (Hm & Hb & _).
  rewrite <- Hf in Hm, Hb.
  exists (text_bytes (Json.dump 0 model_json_B)), model_json_B.
  destruct manifest_B as [Hs Hn].
  split_and!; [exact Hm | apply parse_descriptor_B | exact Hs | exact Hn | exact Hb].
Qed.

(** C5: a successful run of procedure A writes a model.json that parses as
    JSON, whose modelTopology.node is empty and whose single
    weightsManifest entry has an empty weights list, and an empty blob. *)
Theorem convert_tflite_to_tfjs_empty_outputs w w' :
  convert_tflite_to_tfjs tflite_ok w = (Ok tt, w') ->
  exists d j g,
    files w' !! model_path = Some d /\ parse_bytes d = Some j /\
    topology_nodes j = Some [] /\
    manifest_groups j = Some [g] /\ group_weights g = Some [] /\
    files w' !! blob_path = Some [].
Proof.
  intros H. apply convert_tflite_to_tfjs_ok in H as (Hf & _ & _).
  destruct (outputs_lookup (text_bytes (Json.dump 0 model_json_A)) (tofile [])
              (files w)) as (Hm & Hb & _).
  rewrite <- Hf in Hm, Hb.
  eexists _, model_json_A, _.
  split_and!; [exact Hm | apply parse_descriptor_A | reflexivity | reflexivity
              | reflexivity | exact Hb].
Qed.

(** C6: in a successful run of procedure B, modelTopology.node of the
    written model.json has exactly two nodes, a Placeholder named input
    and an Identity named output, whose input list is ["dense/BiasAdd"], a
    name that no node of the sequence carries. *)
Theorem create_tfjs_model_topology w w' :
  create_tfjs_model tflite_ok to_f32 f32_mul_tenth w = (Ok tt, w') ->
  exists d j n1 n2,
    files w' !! model_path = Some d /\ parse_bytes d = Some j /\
    topology_nodes j = Some [n1; n2] /\
    node_name n1 = Some "input"%string /\ node_op n1 = Some "Placeholder"%string /\
    node_name n2 = Some "output"%string /\ node_op n2 = Some "Identity"%string /\
    node_inputs n2 = Some ["dense/BiasAdd"%string] /\
    Forall (fun n => node_name n <> Some "dense/BiasAdd"%string) [n1; n2].
Proof.
  intros H. apply create_tfjs_model_ok in H as (Hf & _ & _).
  destruct (outputs_lookup (text_bytes (Json.dump 0 model_json_B))
              (tofile (draw_tensors to_f32 f32_mul_tenth (rng w) (rng_pos w) weight_shapes))
              (files w)) as (Hm & Hb & _).
  rewrite <- Hf in Hm.
  eexists _, model_json_B, _, _.
  split_and!; [exact Hm | apply parse_descriptor_B | reflexivity ..
              | repeat constructor; cbn; discriminate].
Qed.

(** C7: when the input model cannot be loaded (absent, not a file, or
    refused by the runtime), both procedures stop with an error and leave
    every file, model.json and group1-shard1of1.bin included, as it was. *)
Theorem load_failure_writes_nothing w :
  load_fails tflite_ok w ->
  (exists e w', convert_tflite_to_tfjs tflite_ok w = (Err e, w') /\ files w' = files w) /\
  (exists e w', create_tfjs_model tflite_ok to_f32 f32_mul_tenth w = (Err e, w') /\
                files w' = files w).
Proof.
  intros Hfail. split.
  - unfold convert_tflite_to_tfjs, mbind, M_bind, bindM. cbv beta iota.
    rewrite (interpreter_load_fails _ _ _ Hfail). cbv beta iota.
    eexists _, _. split; reflexivity.
  - unfold create_tfjs_model, mbind, M_bind, bindM. cbv beta iota.
    destruct (os_makedirs_cases out_dirs w) as (r & w1 & Hmk & Hf & _).
    rewrite Hmk. destruct r as [[]|e]; cbv beta iota.
    + rewrite (interpreter_load_fails tflite_ok input_path w1).
      * cbv beta iota. eexists _, _. split; [reflexivity | exact Hf].
      * unfold load_fails in Hfail. rewrite Hf. exact Hfail.
    + eexists _, _. split; [reflexivity | exact Hf].
Qed.

(** C8: two successful runs of procedure A, from any two worlds, leave
    byte-identical model.json files and identical, empty, blobs; two
    successful runs of procedure B leave byte-identical model.json files
    and blobs of the same length. *)
Theorem runs_structurally_identical w1 w2 w1' w2' :
  (convert_tflite_to_tfjs tflite_ok w1 = (Ok tt, w1') ->
   convert_tflite_to_tfjs tflite_ok w2 = (Ok tt, w2') ->
   files w1' !! model_path = files w2' !! model_path /\
   files w1' !! blob_path = files w2' !! blob_path /\
   files w1' !! blob_path = Some []) /\
  (create_tfjs_model tflite_ok to_f32 f32_mul_tenth w1 = (Ok tt, w1') ->
   create_tfjs_model tflite_ok to_f32 f32_mul_tenth w2 = (Ok tt, w2') ->
   files w1' !! model_path = files w2' !! model_path /\
   blob_length w1' = blob_length w2').
Proof.
  split.
  - intros H1 H2.
    apply convert_tflite_to_tfjs_ok in H1 as (Hf1 & _ & _).
    apply convert_tflite_to_tfjs_ok in H2 as (Hf2 & _ & _).
    rewrite Hf1, Hf2. rewrite !(proj1 (outputs_lookup _ _ _)).
    rewrite !(proj1 (proj2 (outputs_lookup _ _ _))). done.
  - intros H1 H2.
    pose proof (create_tfjs_model_blob_bytes _ _ H1) as [_ Hb1].
    pose proof (create_tfjs_model_blob_bytes _ _ H2) as [_ Hb2].
    apply create_tfjs_model_ok in H1 as (Hf1 & _ & _).
    apply create_tfjs_model_ok in H2 as (Hf2 & _ & _).
    rewrite Hb1, Hb2. split; [|done].
    rewrite Hf1, Hf2. rewrite !(proj1 (outputs_lookup _ _ _)). done.
Qed.

Lemma writes_two_outputs_of w w' c1 c2 tr0 pre :
  files w' = <[blob_path := c2]> (<[model_path := c1]> (files w)) ->
  dirs w' = dirs w ∪ list_to_set out_dirs ->
  log w' = log w ++ pre ++ tr0 ++ [EWrite model_path; EWrite blob_path] ->
  Forall no_path (pre ++ tr0) ->
  writes_two_outputs w w'.
Proof.
  intros Hf Hd Hl Hnp.
  destruct (outputs_lookup c1 c2 (files w)) as (Hm & Hb & Ho).
  rewrite <- Hf in Hm, Hb, Ho.
  split_and!; [exact Ho | by eexists | by eexists | | exact Hd |].
  - rewrite Hd. unfold out_dirs. set_solver.
  - exists (pre ++ tr0 ++ [EWrite model_path; EWrite blob_path]). split; [exact Hl|].
    rewrite app_assoc, written_app, no_path_written by exact Hnp. done.
Qed.

(** C9: a successful run of either procedure writes model.json and
    group1-shard1of1.bin in ./assets/cards_model, which it creates with
    its parent if they are absent, completes no other write and leaves
    every other file as it was. *)
Theorem runs_write_two_files w w' :
  (convert_tflite_to_tfjs tflite_ok w = (Ok tt, w') -> writes_two_outputs w w') /\
  (create_tfjs_model tflite_ok to_f32 f32_mul_tenth w = (Ok tt, w') ->
   writes_two_outputs w w').
Proof.
  split; intros H.
  - apply convert_tflite_to_tfjs_ok in H as (Hf & Hd & tr & Hl & Hnp).
    apply (writes_two_outputs_of w w' _ _ tr [ELoad input_path] Hf Hd Hl).
    constructor; [done | exact Hnp].
  - apply create_tfjs_model_ok in H as (Hf & Hd & tr & Hl & Hnp).
    apply (writes_two_outputs_of w w' _ _ [ELoad input_path] tr Hf Hd Hl).
    apply Forall_app. split; [exact Hnp|]. constructor; [done | constructor].
Qed.

(** C10: in every run of either procedure, whatever its outcome, the new
    I/O operations touch the blob only after model.json has been written
    completely; a run whose blob write fails ends in an error with the
    complete descriptor in model.json and no completed blob write. *)
Theorem descriptor_written_before_blob w :
  run_ordered (convert_tflite_to_tfjs tflite_ok w) w (text_bytes (Json.dump 0 model_json_A)) /\
  run_ordered (create_tfjs_model tflite_ok to_f32 f32_mul_tenth w) w
    (text_bytes (Json.dump 0 model_json_B)).
Proof.
  split.
  - unfold convert_tflite_to_tfjs. repeat step.
    all: rewrite ?path_join_model, ?path_join_blob in *.
    all: unfold run_ordered; cbn [fst snd]; world_simpl.
    all: try (destruct Heff as (_ & _ & _ & _ & (tr0 & Hl0 & Hnp) & _); world_simpl).
    + (* both writes done *)
      exists ([ELoad input_path] ++ tr0 ++ [EWrite model_path; EWrite blob_path]).
      split_and!; [rewrite Hl0; by rewrite <- !app_assoc | |].
      * rewrite (app_assoc [ELoad input_path] tr0).
        apply blob_after_descriptor_write. not_blob_events.
      * intros Hin. exfalso. trace_absurd.
    + (* the blob write fails *)
      exists ([ELoad input_path] ++ tr0 ++ [EWrite model_path; EWriteFailed blob_path]).
      split_and!; [rewrite Hl0; by rewrite <- !app_assoc | |].
      * rewrite (app_assoc [ELoad input_path] tr0).
        apply blob_after_descriptor_write. not_blob_events.
      * intros _. split_and!; [discriminate | |].
        -- rewrite Hfs by exact model_path_ne_blob_path. world_simpl.
           by rewrite lookup_insert_eq.
        -- intros Hin. trace_absurd.
    + (* the descriptor write fails *)
      exists ([ELoad input_path] ++ tr0 ++ [EWriteFailed model_path]).
      split_and!; [rewrite Hl0; by rewrite <- !app_assoc | |].
      * apply blob_after_descriptor_none. not_blob_events.
      * intros Hin. exfalso. trace_absurd.
    + (* os.makedirs fails *)
      exists ([ELoad input_path] ++ tr0).
      split_and!; [rewrite Hl0; by rewrite <- !app_assoc | |].
      * apply blob_after_descriptor_none. not_blob_events.
      * intros Hin. exfalso. trace_absurd.
    + (* the interpreter fails *)
      exists []. split_and!; [by rewrite app_nil_r | |].
      * apply blob_after_descriptor_none. constructor.
      * intros Hin. exfalso. trace_absurd.
  - unfold create_tfjs_model. repeat step.
    all: rewrite ?path_join_model, ?path_join_blob in *.
    all: unfold run_ordered; cbn [fst snd]; world_simpl.
    all: try (destruct Heff as (_ & _ & _ & _ & (tr0 & Hl0 & Hnp) & _); world_simpl).
    + (* both writes done *)
      exists ((tr0 ++ [ELoad input_path]) ++ [EWrite model_path; EWrite blob_path]).
      split_and!; [rewrite Hl0; by rewrite <- !app_assoc | |].
      * apply blob_after_descriptor_write. not_blob_events.
      * intros Hin. exfalso. trace_absurd.
    + (* the blob write fails *)
      exists ((tr0 ++ [ELoad input_path]) ++ [EWrite model_path; EWriteFailed blob_path]).
      split_and!; [rewrite Hl0; by rewrite <- !app_assoc | |].
      * apply blob_after_descriptor_write. not_blob_events.
      * intros _. split_and!; [discriminate | |].
        -- rewrite Hfs by exact model_path_ne_blob_path. world_simpl.
           by rewrite lookup_insert_eq.
        -- intros Hin. trace_absurd.
    + (* the descriptor write fails *)
      exists (tr0 ++ [ELoad input_path; EWriteFailed model_path]).
      split_and!; [rewrite Hl0; by rewrite <- !app_assoc | |].
      * apply blob_after_descriptor_none. not_blob_events.
      * intros Hin. exfalso. trace_absurd.
    + (* the interpreter fails *)
      exists tr0. split_and!; [exact Hl0 | |].
      * apply blob_after_descriptor_none. not_blob_events.
      * intros Hin. exfalso. trace_absurd.
    + (* os.makedirs fails *)
      exists tr0. split_and!; [exact Hl0 | |].
      * apply blob_after_descriptor_none. not_blob_events.
      * intros Hin. exfalso. trace_absurd.
Qed.

End Claims.

(* ================================================================== *)
(** ** Further properties of the two scripts *)

Section Extras.

Variable tflite_ok : list Z -> bool.
Variable to_f32 : Z -> Z.
Variable f32_mul_tenth : Z -> Z.

(** Whatever its outcome, a run of either procedure changes no file other
    than model.json and group1-shard1of1.bin (so never the input model),
    removes no directory and adds none but ./assets and
    ./assets/cards_model; procedure A draws nothing from the generator. *)
Theorem runs_change_only_outputs w :
  (forall q, q <> model_path -> q <> blob_path ->
     files (snd (convert_tflite_to_tfjs tflite_ok w)) !! q = files w !! q /\
     files (snd (create_tfjs_model tflite_ok to_f32 f32_mul_tenth w)) !! q = files w !! q) /\
  dirs w ⊆ dirs (snd (convert_tflite_to_tfjs tflite_ok w)) /\
  dirs (snd (convert_tflite_to_tfjs tflite_ok w)) ⊆ dirs w ∪ list_to_set out_dirs /\
  dirs w ⊆ dirs (snd (create_tfjs_model tflite_ok to_f32 f32_mul_tenth w)) /\
  dirs (snd (create_tfjs_model tflite_ok to_f32 f32_mul_tenth w)) ⊆ dirs w ∪ list_to_set out_dirs /\
  rng_pos (snd (convert_tflite_to_tfjs tflite_ok w)) = rng_pos w.
Proof.
  destruct (keeps_convert_tflite_to_tfjs tflite_ok w) as (HfA & HdA & HuA & _).
  destruct (keeps_create_tfjs_model tflite_ok to_f32 f32_mul_tenth w) as (HfB & HdB & HuB & _).
  split_and!; try assumption.
  - intros q Hm Hb. split; [apply HfA | apply HfB]; assumption.
  - unfold convert_tflite_to_tfjs. repeat step. all: cbn [snd]; world_simpl.
    all: try reflexivity.
    all: destruct Heff as (_ & _ & Hp & _); exact Hp.
Qed.



(** Procedure A is idempotent: run again after a success, it succeeds and
    leaves the same files and directories. *)
Theorem convert_tflite_to_tfjs_idempotent w w1 :
  convert_tflite_to_tfjs tflite_ok w = (Ok tt, w1) ->
  exists w2, convert_tflite_to_tfjs tflite_ok w1 = (Ok tt, w2) /\
    files w2 = files w1 /\ dirs w2 = dirs w1.
Proof.
  intros H.
  destruct (proj2 (convert_tflite_to_tfjs_ready tflite_ok w1)
              (convert_tflite_to_tfjs_ready_after tflite_ok _ _ H)) as (w2 & H2).
  exists w2. split; [exact H2|].
  apply convert_tflite_to_tfjs_ok in H as (Hf1 & Hd1 & _).
  apply convert_tflite_to_tfjs_ok in H2 as (Hf2 & Hd2 & _).
  split.
  - rewrite Hf2, Hf1. rewrite (insert_insert_ne _ model_path blob_path) by discriminate.
    rewrite !insert_insert_eq. reflexivity.
  - rewrite Hd2, Hd1. set_solver.
Qed.

(** Run again after a success, procedure B succeeds, changes no file but
    the blob, and writes a blob of the same length. *)
Theorem create_tfjs_model_rerun w w1 :
  create_tfjs_model tflite_ok to_f32 f32_mul_tenth w = (Ok tt, w1) ->
  exists w2, create_tfjs_model tflite_ok to_f32 f32_mul_tenth w1 = (Ok tt, w2) /\
    (forall q, q <> blob_path -> files w2 !! q = files w1 !! q) /\
    dirs w2 = dirs w1 /\ blob_length w2 = blob_length w1.
Proof.
  intros H.
  destruct (proj2 (create_tfjs_model_ready tflite_ok to_f32 f32_mul_tenth w1)
              (create_tfjs_model_ready_after tflite_ok to_f32 f32_mul_tenth _ _ H)) as (w2 & H2).
  exists w2. split; [exact H2|].
  assert (Hl : blob_length w2 = blob_length w1).
  { pose proof (create_tfjs_model_ok tflite_ok to_f32 f32_mul_tenth _ _ H) as (Hf1 & _).
    pose proof (create_tfjs_model_ok tflite_ok to_f32 f32_mul_tenth _ _ H2) as (Hf2 & _).
    rewrite (blob_length_of w2 _ ltac:(rewrite Hf2; apply lookup_insert_eq)).
    rewrite (blob_length_of w1 _ ltac:(rewrite Hf1; apply lookup_insert_eq)).
    rewrite !length_tofile, !Nat2Z.inj_mul.
    rewrite !length_draw_tensors by apply weight_shapes_nonneg. reflexivity. }
  apply create_tfjs_model_ok in H as (Hf1 & Hd1 & _).
  apply create_tfjs_model_ok in H2 as (Hf2 & Hd2 & _).
  split_and!; [| | exact Hl].
  - intros q Hq. rewrite Hf2, lookup_insert_ne by congruence.
    destruct (decide (q = model_path)) as [->|Hm].
    + rewrite lookup_insert_eq, Hf1, lookup_insert_ne by discriminate.
      by rewrite lookup_insert_eq.
    + by rewrite lookup_insert_ne by congruence.
  - rewrite Hd2, Hd1. clear -Hd1. set_solver.
Qed.

(** When the input model cannot be loaded, procedure A stops with the
    interpreter's error before any other operation and leaves the state
    as it was; procedure B has already created the output directories
    when it fails with the same error, and changes no file. *)
Theorem load_failure_effects w :
  load_fails tflite_ok w ->
  convert_tflite_to_tfjs tflite_ok w = (Err InterpreterError, w) /\
  (Forall (dir_ready w) out_dirs ->
   exists w', create_tfjs_model tflite_ok to_f32 f32_mul_tenth w = (Err InterpreterError, w') /\
     files w' = files w /\ dirs w' = dirs w ∪ list_to_set out_dirs).
Proof.
  intros Hfail. split.
  - unfold convert_tflite_to_tfjs, mbind, M_bind, bindM.
    rewrite (interpreter_load_fails _ _ _ Hfail). reflexivity.
  - intros Hr. destruct (proj2 (os_makedirs_ok_iff out_dirs w) Hr) as (w1 & H1).
    pose proof (os_makedirs_ok _ _ _ H1) as (Hf1 & _ & _ & _ & _ & Hd1).
    exists w1. split_and!; [| exact Hf1 | exact (Hd1 eq_refl)].
    unfold create_tfjs_model, mbind, M_bind. unfold bindM at 1. rewrite H1.
    unfold bindM at 1. rewrite interpreter_load_fails; [reflexivity|].
    unfold load_fails in Hfail. rewrite Hf1. exact Hfail.
Qed.

(** A successful run of procedure B takes exactly the next 60276 draws of
    numpy's generator, and its blob holds them in the order drawn, each
    cast to float32 and scaled: the four tensors neither skip nor share a
    draw. *)
Theorem create_tfjs_model_draws w w' :
  create_tfjs_model tflite_ok to_f32 f32_mul_tenth w = (Ok tt, w') ->
  Z.of_nat (rng_pos w') = Z.of_nat (rng_pos w) + 60276 /\
  files w' !! blob_path =
    Some (tofile (map f32_mul_tenth (map to_f32
            (map (fun i => rng w (rng_pos w + i)%nat) (seq 0 (Z.to_nat 60276)))))).
Proof.
  intros H. split.
  - rewrite (create_tfjs_model_rng_pos tflite_ok to_f32 f32_mul_tenth _ _ H).
    rewrite draw_count_weight_shapes, Nat2Z.inj_add, Z2Nat.id by lia. reflexivity.
  - apply create_tfjs_model_ok in H as (Hf & _).
    rewrite Hf, lookup_insert_eq, draw_tensors_flat, draw_count_weight_shapes. reflexivity.
Qed.

End Extras.

(** [ndarray.tofile] writes every element as four bytes, each in 0..255,
    and reading the bytes back four at a time, little-endian, gives back
    every element that is a 32-bit pattern. *)
Theorem tofile_roundtrip xs :
  Forall (fun b => 0 <= b < 256) (tofile xs) /\
  (Forall (fun x => 0 <= x < 2 ^ 32) xs -> from_le32 (tofile xs) = xs).
Proof.
  split.
  - unfold tofile. induction xs as [|x xs IH]; cbn [flat_map]; [constructor|].
    apply Forall_app. split; [apply le32_bytes | exact IH].
  - induction 1 as [|x xs Hx _ IH]; [reflexivity|].
    cbn [tofile flat_map]. fold (tofile xs). unfold le32. cbn [app from_le32].
    rewrite le32_value by exact Hx. f_equal. exact IH.
Qed.

(** [os.makedirs(..., exist_ok=True)] called again after it succeeded
    succeeds and changes nothing. *)
Theorem os_makedirs_idempotent ds w w' :
  os_makedirs ds w = (Ok tt, w') -> os_makedirs ds w' = (Ok tt, w').
Proof.
  intros H. apply os_makedirs_ok in H as (_ & _ & _ & _ & _ & Hd).
  apply os_makedirs_present. apply Forall_forall. intros d Hin.
  rewrite (Hd eq_refl). apply elem_of_union_r, elem_of_list_to_set, Hin.
Qed.

(** [json.dump(obj, f, indent=2)] writes ASCII text that a JSON reader
    parses back to [obj], for every value whose integers have at most 64
    digits and whose strings, keys included, hold only printable ASCII
    characters and new lines. *)
Theorem json_dump_roundtrip j :
  JsonFacts.json_ok j = true -> parse_bytes (text_bytes (Json.dump 0 j)) = Some j.
Proof.
  intros Hj. unfold parse_bytes, text_bytes.
  pose proof (JsonFacts.dump_ascii7 j 0 Hj) as Ha.
  rewrite (proj2 (forallb_forall _ _)).
  2:{ intros z Hz. apply in_map_iff in Hz as (c & <- & Hc).
      rewrite Forall_forall in Ha. apply list_elem_of_In in Hc. specialize (Ha c Hc).
      unfold JsonFacts.ascii7 in Ha. apply andb_true_intro. split; [apply Z.leb_le | apply Z.ltb_lt]; lia. }
  rewrite map_map.
  rewrite (map_ext _ (fun a => a)) by (intros a; by rewrite Nat2Z.id, Ascii.ascii_nat_embedding).
  rewrite map_id. unfold Json.parse.
  pose proof (JsonFacts.value_ok_all (S (length (list_ascii_of_string (Json.dump 0 j)))) j 0%nat [] []
                Hj (List.Forall_nil _) I ltac:(lia)) as H.
  rewrite app_nil_r in H. cbn [app] in H. rewrite H. reflexivity.
Qed.

Section ListingExtras.

Variable tflite_ok : list Z -> bool.
Variable to_f32 : Z -> Z.
Variable f32_mul_tenth : Z -> Z.
Variable dir_size : string -> Z.



End ListingExtras.


(* ================================================================== *)
(** ** Concrete runs *)

(** A working directory with a three-byte model file, a disk that accepts
    every write, and a generator that draws 1 every time. *)
Definition demo_world : world :=
  mkWorld {[ input_path := [1; 2; 3] ]} {[ "."%string ]} (fun _ => WOk)
    (fun _ => 1) 0 [].

(** Another directory: a different one-byte model file and a generator
    that draws -2 every time. *)
Definition other_world : world :=
  mkWorld {[ input_path := [7] ]} {[ "."%string ]} (fun _ => WOk)
    (fun _ => -2) 0 [].

(** The same directory as [demo_world] without the model file. *)
Definition missing_world : world :=
  mkWorld ∅ {[ "."%string ]} (fun _ => WOk) (fun _ => 1) 0 [].

(** A runtime that loads any bytes. *)
Definition demo_tflite_ok (b : list Z) : bool := true.

Local Abbreviation demo_B w := (create_tfjs_model demo_tflite_ok id id w).
Local Abbreviation demo_A w := (convert_tflite_to_tfjs demo_tflite_ok w).

Lemma ok_pair (r : res unit * world) : fst r = Ok tt -> r = (Ok tt, snd r).
Proof. destruct r as [[[]|] w]; cbn; congruence. Qed.

(** C1: a run of procedure B on the demo directory succeeds and writes a
    blob of 241104 bytes, not 240272. *)
Lemma create_tfjs_model_blob_not_240272 :
  fst (demo_B demo_world) = Ok tt /\
  blob_length (snd (demo_B demo_world)) = Some 241104 /\
  blob_length (snd (demo_B demo_world)) <> Some 240272.
Proof.
  split_and!; [vm_compute; reflexivity | vm_compute; reflexivity |].
  vm_compute. discriminate.
Qed.

Lemma create_tfjs_model_blob_bytes_witness :
  fst (demo_B demo_world) = Ok tt /\
  blob_length (snd (demo_B demo_world)) = Some (4 * (3 * 3 * 1 * 32 + 32 + 1152 * 52 + 52)) /\
  blob_length (snd (demo_B demo_world)) = Some 241104.
Proof.
  assert (H : fst (demo_B demo_world) = Ok tt) by (vm_compute; reflexivity).
  split; [exact H|].
  exact (create_tfjs_model_blob_bytes demo_tflite_ok id id demo_world _ (ok_pair _ H)).
Defined.

Lemma create_tfjs_model_manifest_matches_blob_witness :
  fst (demo_B demo_world) = Ok tt /\
  exists d j shs b xs,
    files (snd (demo_B demo_world)) !! model_path = Some d /\ parse_bytes d = Some j /\
    manifest_shapes j = Some shs /\
    files (snd (demo_B demo_world)) !! blob_path = Some b /\ b = tofile xs /\
    Z.of_nat (length xs) = sum_list (map shape_size shs).
Proof.
  assert (H : fst (demo_B demo_world) = Ok tt) by (vm_compute; reflexivity).
  split; [exact H|].
  exact (create_tfjs_model_manifest_matches_blob demo_tflite_ok id id demo_world _ (ok_pair _ H)).
Defined.

Lemma create_tfjs_model_manifest_order_witness :
  fst (demo_B demo_world) = Ok tt /\
  exists d j,
    files (snd (demo_B demo_world)) !! model_path = Some d /\ parse_bytes d = Some j /\
    manifest_shapes j = Some [[3; 3; 1; 32]; [32]; [1152; 52]; [52]] /\
    manifest_names j =
      Some ["conv2d/kernel"; "conv2d/bias"; "dense/kernel"; "dense/bias"]%string /\
    files (snd (demo_B demo_world)) !! blob_path =
      Some (tofile (draw_tensors id id (rng demo_world) (rng_pos demo_world)
                      [[3; 3; 1; 32]; [32]; [1152; 52]; [52]])).
Proof.
  assert (H : fst (demo_B demo_world) = Ok tt) by (vm_compute; reflexivity).
  split; [exact H|].
  exact (create_tfjs_model_manifest_order demo_tflite_ok id id demo_world _ (ok_pair _ H)).
Defined.

Lemma convert_tflite_to_tfjs_empty_outputs_witness :
  fst (demo_A demo_world) = Ok tt /\
  exists d j g,
    files (snd (demo_A demo_world)) !! model_path = Some d /\ parse_bytes d = Some j /\
    topology_nodes j = Some [] /\
    manifest_groups j = Some [g] /\ group_weights g = Some [] /\
    files (snd (demo_A demo_world)) !! blob_path = Some [].
Proof.
  assert (H : fst (demo_A demo_world) = Ok tt) by (vm_compute; reflexivity).
  split; [exact H|].
  exact (convert_tflite_to_tfjs_empty_outputs demo_tflite_ok demo_world _ (ok_pair _ H)).
Defined.

Lemma create_tfjs_model_topology_witness :
  fst (demo_B demo_world) = Ok tt /\
  exists d j n1 n2,
    files (snd (demo_B demo_world)) !! model_path = Some d /\ parse_bytes d = Some j /\
    topology_nodes j = Some [n1; n2] /\
    node_name n1 = Some "input"%string /\ node_op n1 = Some "Placeholder"%string /\
    node_name n2 = Some "output"%string /\ node_op n2 = Some "Identity"%string /\
    node_inputs n2 = Some ["dense/BiasAdd"%string] /\
    Forall (fun n => node_name n <> Some "dense/BiasAdd"%string) [n1; n2].
Proof.
  assert (H : fst (demo_B demo_world) = Ok tt) by (vm_compute; reflexivity).
  split; [exact H|].
  exact (create_tfjs_model_topology demo_tflite_ok id id demo_world _ (ok_pair _ H)).
Defined.

Lemma load_failure_writes_nothing_witness :
  load_fails demo_tflite_ok missing_world /\
  (exists e w', demo_A missing_world = (Err e, w') /\ files w' = files missing_world) /\
  (exists e w', demo_B missing_world = (Err e, w') /\ files w' = files missing_world).
Proof.
  assert (H : load_fails demo_tflite_ok missing_world) by (vm_compute; exact I).
  split; [exact H|].
  exact (load_failure_writes_nothing demo_tflite_ok id id missing_world H).
Defined.

(** Running each procedure twice: on the demo directory, then on the
    directory the first run left. *)
Lemma runs_structurally_identical_witness :
  fst (demo_A demo_world) = Ok tt /\ fst (demo_A other_world) = Ok tt /\
  files (snd (demo_A demo_world)) !! model_path =
    files (snd (demo_A other_world)) !! model_path /\
  files (snd (demo_A demo_world)) !! blob_path =
    files (snd (demo_A other_world)) !! blob_path /\
  files (snd (demo_A demo_world)) !! blob_path = Some [] /\
  fst (demo_B demo_world) = Ok tt /\ fst (demo_B other_world) = Ok tt /\
  files (snd (demo_B demo_world)) !! model_path =
    files (snd (demo_B other_world)) !! model_path /\
  blob_length (snd (demo_B demo_world)) =
    blob_length (snd (demo_B other_world)).
Proof.
  assert (HA1 : fst (demo_A demo_world) = Ok tt) by (vm_compute; reflexivity).
  assert (HA2 : fst (demo_A other_world) = Ok tt) by (vm_compute; reflexivity).
  assert (HB1 : fst (demo_B demo_world) = Ok tt) by (vm_compute; reflexivity).
  assert (HB2 : fst (demo_B other_world) = Ok tt) by (vm_compute; reflexivity).
  destruct (runs_structurally_identical demo_tflite_ok id id demo_world
              other_world (snd (demo_A demo_world))
              (snd (demo_A other_world))) as [HA _].
  destruct (runs_structurally_identical demo_tflite_ok id id demo_world
              other_world (snd (demo_B demo_world))
              (snd (demo_B other_world))) as [_ HB].
  destruct (HA (ok_pair _ HA1) (ok_pair _ HA2)) as (HA3 & HA4 & HA5).
  destruct (HB (ok_pair _ HB1) (ok_pair _ HB2)) as (HB3 & HB4).
  split_and!; assumption.
Defined.

Lemma runs_write_two_files_witness :
  fst (demo_A demo_world) = Ok tt /\
  writes_two_outputs demo_world (snd (demo_A demo_world)) /\
  fst (demo_B demo_world) = Ok tt /\
  writes_two_outputs demo_world (snd (demo_B demo_world)).
Proof.
  assert (HA : fst (demo_A demo_world) = Ok tt) by (vm_compute; reflexivity).
  assert (HB : fst (demo_B demo_world) = Ok tt) by (vm_compute; reflexivity).
  split_and!; [exact HA | | exact HB |].
  - exact (proj1 (runs_write_two_files demo_tflite_ok id id demo_world _) (ok_pair _ HA)).
  - exact (proj2 (runs_write_two_files demo_tflite_ok id id demo_world _) (ok_pair _ HB)).
Defined.

(** Procedure B on the demo directory leaves the model file as it was. *)
Lemma runs_change_only_outputs_witness :
  files (snd (demo_B demo_world)) !! input_path = Some [1; 2; 3].
Proof.
  destruct (runs_change_only_outputs demo_tflite_ok id id demo_world) as [H _].
  destruct (H input_path) as [_ HB]; [discriminate | discriminate |].
  rewrite HB. reflexivity.
Defined.


Lemma convert_tflite_to_tfjs_idempotent_witness :
  fst (demo_A demo_world) = Ok tt /\
  exists w2, demo_A (snd (demo_A demo_world)) = (Ok tt, w2) /\
    files w2 = files (snd (demo_A demo_world)) /\ dirs w2 = dirs (snd (demo_A demo_world)).
Proof.
  assert (H : fst (demo_A demo_world) = Ok tt) by (vm_compute; reflexivity).
  split; [exact H|].
  exact (convert_tflite_to_tfjs_idempotent demo_tflite_ok demo_world _ (ok_pair _ H)).
Defined.

Lemma create_tfjs_model_rerun_witness :
  fst (demo_B demo_world) = Ok tt /\
  exists w2, demo_B (snd (demo_B demo_world)) = (Ok tt, w2) /\
    blob_length w2 = blob_length (snd (demo_B demo_world)).
Proof.
  assert (H : fst (demo_B demo_world) = Ok tt) by (vm_compute; reflexivity).
  split; [exact H|].
  destruct (create_tfjs_model_rerun demo_tflite_ok id id demo_world _ (ok_pair _ H))
    as (w2 & H2 & _ & _ & Hl).
  exists w2. split; [exact H2 | exact Hl].
Defined.

(** Without the model file, procedure B fails after creating both
    directories, and procedure A fails at once. *)
Lemma load_failure_effects_witness :
  demo_A missing_world = (Err InterpreterError, missing_world) /\
  exists w', demo_B missing_world = (Err InterpreterError, w') /\
    files w' = ∅ /\ dirs w' = {[ "."%string ]} ∪ list_to_set out_dirs.
Proof.
  destruct (load_failure_effects demo_tflite_ok id id missing_world I) as [HA HB].
  split; [exact HA|].
  destruct HB as (w' & H & Hf & Hd).
  { repeat (apply List.Forall_cons; [right; split; reflexivity|]). apply List.Forall_nil. }
  exists w'. split_and!; [exact H | exact Hf | exact Hd].
Defined.

Lemma create_tfjs_model_draws_witness :
  fst (demo_B demo_world) = Ok tt /\
  Z.of_nat (rng_pos (snd (demo_B demo_world))) = 60276.
Proof.
  assert (H : fst (demo_B demo_world) = Ok tt) by (vm_compute; reflexivity).
  split; [exact H|].
  exact (proj1 (create_tfjs_model_draws demo_tflite_ok id id demo_world _ (ok_pair _ H))).
Defined.

Lemma tofile_roundtrip_witness :
  from_le32 (tofile [0; 1; 70000; 4294967295]) = [0; 1; 70000; 4294967295].
Proof.
  apply (proj2 (tofile_roundtrip [0; 1; 70000; 4294967295])).
  repeat (apply List.Forall_cons; [lia|]). apply List.Forall_nil.
Defined.

Lemma os_makedirs_idempotent_witness :
  fst (os_makedirs out_dirs demo_world) = Ok tt /\
  os_makedirs out_dirs (snd (os_makedirs out_dirs demo_world)) =
    (Ok tt, snd (os_makedirs out_dirs demo_world)).
Proof.
  assert (H : fst (os_makedirs out_dirs demo_world) = Ok tt) by (vm_compute; reflexivity).
  split; [exact H|].
  exact (os_makedirs_idempotent out_dirs demo_world _ (ok_pair _ H)).
Defined.

(** The descriptor procedure B writes is read back as written. *)
Lemma json_dump_roundtrip_witness :
  parse_bytes (text_bytes (Json.dump 0 model_json_B)) = Some model_json_B.
Proof. apply json_dump_roundtrip. vm_compute. reflexivity. Defined.

